(** * The contact form of src/app/contact/page.tsx

    A shallow embedding of the page's client-side logic: the Turnstile
    script loader [loadTurnstile], the mount effect that renders the
    widget, the field-change handler [handleChange], the validator
    [validate] and the submission handler [handleSubmit], followed by
    the properties the specification states about them.

    JavaScript strings are sequences of UTF-16 code units; they are
    modelled as [list N].  The browser, the Turnstile widget and the
    backend are external: what they answer is an input of the model
    (an outcome value), what the page asks of them is recorded in a
    log of effects. *)

From Stdlib Require Import String Ascii NArith.
From stdpp Require Import gmap list.

Local Open Scope N_scope.

(** ** JavaScript strings *)

Abbreviation jsstring := (list N).

(** A string literal of the source, as code units (the literals of the
    page are ASCII). *)
Definition js (s : string) : jsstring :=
  map N_of_ascii (list_ascii_of_string s).
Arguments js : simpl never.

(** [!s] and [!!s] on a string: the empty string is the only falsy one. *)
Definition truthy (s : jsstring) : bool :=
  match s with [] => false | _ :: _ => true end.

(** Truthiness of a [string | undefined] or [string | null] value. *)
Definition truthy_opt (v : option jsstring) : bool :=
  match v with None => false | Some s => truthy s end.

(** ECMAScript WhiteSpace and LineTerminator code points: what the regular
    expression class [\s] matches and what [String.prototype.trim] strips. *)
Definition is_space (c : N) : bool :=
  (c =? 9) || (c =? 10) || (c =? 11) || (c =? 12) || (c =? 13) || (c =? 32)
  || (c =? 160) || (c =? 5760)
  || ((8192 <=? c) && (c <=? 8202))
  || (c =? 8232) || (c =? 8233) || (c =? 8239) || (c =? 8287)
  || (c =? 12288) || (c =? 65279).

(** The class [\d]: the ten ASCII digits. *)
Definition is_digit (c : N) : bool := (48 <=? c) && (c <=? 57).

Fixpoint trimStart (s : jsstring) : jsstring :=
  match s with
  | [] => []
  | c :: s' => if is_space c then trimStart s' else s
  end.

Definition trimEnd (s : jsstring) : jsstring := rev (trimStart (rev s)).

(** [s.trim()] *)
Definition trim (s : jsstring) : jsstring := trimEnd (trimStart s).

(** [s.replace(/C/g, '')] for a pattern that is a single character class
    [C]: every code unit the class matches is deleted. *)
Definition replace_class_all (cls : N -> bool) (s : jsstring) : jsstring :=
  List.filter (fun c => negb (cls c)) s.

(** [s.startsWith(p)], the test behind the attribute selector [src^=p]. *)
Fixpoint startsWith (p s : jsstring) : bool :=
  match p, s with
  | [], _ => true
  | _ :: _, [] => false
  | a :: p', b :: s' => (a =? b) && startsWith p' s'
  end.

(** ** Regular expressions

    The fragment the page uses: character classes, concatenation and
    [+], matched against the whole input (the pattern is anchored by
    [^] and [$]).  Matching is by derivatives. *)
Module Regex.

Inductive t :=
| Void
| Eps
| Class (p : N -> bool)
| Cat (r1 r2 : t)
| Alt (r1 r2 : t)
| Star (r : t).

Definition Plus (r : t) : t := Cat r (Star r).

Fixpoint nullable (r : t) : bool :=
  match r with
  | Void => false
  | Eps => true
  | Class _ => false
  | Cat r1 r2 => nullable r1 && nullable r2
  | Alt r1 r2 => nullable r1 || nullable r2
  | Star _ => true
  end.

Fixpoint deriv (c : N) (r : t) : t :=
  match r with
  | Void => Void
  | Eps => Void
  | Class p => if p c then Eps else Void
  | Cat r1 r2 =>
      if nullable r1
      then Alt (Cat (deriv c r1) r2) (deriv c r2)
      else Cat (deriv c r1) r2
  | Alt r1 r2 => Alt (deriv c r1) (deriv c r2)
  | Star r1 => Cat (deriv c r1) (Star r1)
  end.

(** [/^r$/.test(s)] *)
Fixpoint test (r : t) (s : jsstring) : bool :=
  match s with
  | [] => nullable r
  | c :: s' => test (deriv c r) s'
  end.

End Regex.

(** The class [[^\s@]]. *)
Definition not_space_at (c : N) : bool := negb (is_space c || (c =? 64)).

(** [/^[^\s@]+@[^\s@]+\.[^\s@]+$/] *)
Definition email_regex : Regex.t :=
  Regex.Cat (Regex.Plus (Regex.Class not_space_at))
    (Regex.Cat (Regex.Class (N.eqb 64))
       (Regex.Cat (Regex.Plus (Regex.Class not_space_at))
          (Regex.Cat (Regex.Class (N.eqb 46))
             (Regex.Plus (Regex.Class not_space_at))))).

(** ** The draft *)

Record FormData := mkFormData {
  name : jsstring;
  email : jsstring;
  phone : jsstring;
  projectType : jsstring;
  city : jsstring;
  property : jsstring;
  estimatedCloseDate : jsstring;
  company : jsstring;
  timeline : jsstring;
  message : jsstring;
}.

(** The object both [useState] and the success branch of [handleSubmit]
    write: every field the empty string. *)
Definition emptyForm : FormData :=
  {| name := []; email := []; phone := []; projectType := []; city := [];
     property := []; estimatedCloseDate := []; company := [];
     timeline := []; message := [] |}.

(** [keyof FormData] *)
Module Key.

Inductive t :=
| name | email | phone | projectType | city | property
| estimatedCloseDate | company | timeline | message.

Definition all : list t :=
  [name; email; phone; projectType; city; property;
   estimatedCloseDate; company; timeline; message].

Definition to_nat (k : t) : nat :=
  match k with
  | name => 0 | email => 1 | phone => 2 | projectType => 3 | city => 4
  | property => 5 | estimatedCloseDate => 6 | company => 7
  | timeline => 8 | message => 9
  end%nat.

Definition of_nat (n : nat) : option t := all !! n.

Lemma of_to_nat (k : t) : of_nat (to_nat k) = Some k.
Proof. by destruct k. Qed.

#[global] Instance eq_dec : EqDecision t.
Proof. solve_decision. Defined.

#[global] Instance countable : Countable t :=
  inj_countable to_nat of_nat of_to_nat.

End Key.

(** [formData[field]] *)
Definition getField (k : Key.t) (d : FormData) : jsstring :=
  match k with
  | Key.name => name d
  | Key.email => email d
  | Key.phone => phone d
  | Key.projectType => projectType d
  | Key.city => city d
  | Key.property => property d
  | Key.estimatedCloseDate => estimatedCloseDate d
  | Key.company => company d
  | Key.timeline => timeline d
  | Key.message => message d
  end.

(** [{ ...prev, [field]: value }] *)
Definition setField (k : Key.t) (v : jsstring) (d : FormData) : FormData :=
  match k with
  | Key.name =>
      mkFormData v (email d) (phone d) (projectType d) (city d) (property d)
        (estimatedCloseDate d) (company d) (timeline d) (message d)
  | Key.email =>
      mkFormData (name d) v (phone d) (projectType d) (city d) (property d)
        (estimatedCloseDate d) (company d) (timeline d) (message d)
  | Key.phone =>
      mkFormData (name d) (email d) v (projectType d) (city d) (property d)
        (estimatedCloseDate d) (company d) (timeline d) (message d)
  | Key.projectType =>
      mkFormData (name d) (email d) (phone d) v (city d) (property d)
        (estimatedCloseDate d) (company d) (timeline d) (message d)
  | Key.city =>
      mkFormData (name d) (email d) (phone d) (projectType d) v (property d)
        (estimatedCloseDate d) (company d) (timeline d) (message d)
  | Key.property =>
      mkFormData (name d) (email d) (phone d) (projectType d) (city d) v
        (estimatedCloseDate d) (company d) (timeline d) (message d)
  | Key.estimatedCloseDate =>
      mkFormData (name d) (email d) (phone d) (projectType d) (city d)
        (property d) v (company d) (timeline d) (message d)
  | Key.company =>
      mkFormData (name d) (email d) (phone d) (projectType d) (city d)
        (property d) (estimatedCloseDate d) v (timeline d) (message d)
  | Key.timeline =>
      mkFormData (name d) (email d) (phone d) (projectType d) (city d)
        (property d) (estimatedCloseDate d) (company d) v (message d)
  | Key.message =>
      mkFormData (name d) (email d) (phone d) (projectType d) (city d)
        (property d) (estimatedCloseDate d) (company d) (timeline d) v
  end.

(** ** The error mapping

    [Partial<FormData>]: an object whose keys are field names.  A key
    that is present holds a string or [undefined] ([None]); [handleChange]
    writes [undefined], [validate] writes only strings. *)
Abbreviation Errors := (gmap Key.t (option jsstring)).

(** [errors[field]]: reading an absent key gives [undefined] as well. *)
Definition errorOf (k : Key.t) (e : Errors) : option jsstring :=
  match e !! k with
  | Some v => v
  | None => None
  end.

(** The object [validate] builds in [newErrors] from the draft. *)
Definition newErrors (d : FormData) : Errors :=
  let e0 : Errors := ∅ in
  let e1 :=
    if negb (truthy (trim (name d)))
    then <[Key.name := Some (js "Required")]> e0 else e0 in
  let e2 :=
    if negb (truthy (trim (email d)))
       || negb (Regex.test email_regex (trim (email d)))
    then <[Key.email := Some (js "Invalid email")]> e1 else e1 in
  let e3 :=
    if negb (truthy (trim (phone d)))
    then <[Key.phone := Some (js "Required")]> e2 else e2 in
  let e4 :=
    if negb (truthy (trim (projectType d)))
    then <[Key.projectType := Some (js "Required")]> e3 else e3 in
  e4.

(** [Object.keys(newErrors).length === 0] *)
Definition noKeys (e : Errors) : bool :=
  Nat.eqb (length (map_to_list e).*1) 0.

(** ** Component state and the browser *)

Inductive Status := idle | submitting | success | error.

Definition Status_eqb (a b : Status) : bool :=
  match a, b with
  | idle, idle | submitting, submitting | success, success | error, error =>
      true
  | _, _ => false
  end.

(** The six [useState] cells of [ContactForm]. *)
Record ContactForm := mkContactForm {
  formData : FormData;
  errors : Errors;
  status : Status;
  feedback : jsstring;
  turnstileId : option jsstring;
  turnstileReady : bool;
}.

(** The state on mount. *)
Definition initialForm : ContactForm :=
  mkContactForm emptyForm ∅ idle [] None false.

(** An HTTP request as [fetch] receives it.  The body is the object handed
    to [JSON.stringify], as its key/value pairs in source order. *)
Record Request := mkRequest {
  url : jsstring;
  method : jsstring;
  headers : list (jsstring * jsstring);
  body : list (jsstring * jsstring);
}.

Inductive ConsoleLevel := Log | Warn | Error.

(** What the page asks of its environment. *)
Inductive Effect :=
| AppendScript (src : jsstring)
| Render (sitekey : jsstring)
| Reset (widgetId : jsstring)
| Execute (widgetId action : jsstring)
| Fetch (req : Request)
| Console (level : ConsoleLevel) (msg : jsstring).

(** The part of [window] and [document] the page reads and writes:
    the flag [window._turnstileLoaded] ([undefined] reads as [false]),
    whether [window.turnstile] is defined, the [src] attributes of the
    script elements of the document in document order, and the log of
    the calls made so far, oldest first. *)
Record Window := mkWindow {
  _turnstileLoaded : bool;
  turnstile : bool;
  scripts : list jsstring;
  calls : list Effect;
}.

Definition perform (e : Effect) (w : Window) : Window :=
  mkWindow (_turnstileLoaded w) (turnstile w) (scripts w) (calls w ++ [e]).

(** A fresh page: nothing loaded, no script element, nothing called. *)
Definition freshWindow : Window := mkWindow false false [] [].

(** ** The script loader *)

Definition scriptPrefix : jsstring :=
  js "https://challenges.cloudflare.com/turnstile/v0/api.js".

Definition scriptSrc : jsstring :=
  js "https://challenges.cloudflare.com/turnstile/v0/api.js?render=explicit".

(** [document.querySelector('script[src^=...]')], as the test the loader
    makes of it. *)
Definition existingScript (w : Window) : bool :=
  existsb (startsWith scriptPrefix) (scripts w).

(** The promise [loadTurnstile] returns, as it is when the call returns:
    already resolved, or waiting for the [load] or [error] event of the
    script element the call appended. *)
Inductive LoadPromise := Resolved | Pending.

(** The body of [loadTurnstile] where [window] is defined. *)
Definition loadTurnstileIn (w : Window) : LoadPromise * Window :=
  if _turnstileLoaded w then (Resolved, w)
  else if existingScript w then
    (Resolved, mkWindow true (turnstile w) (scripts w) (calls w))
  else
    (Pending,
     mkWindow (_turnstileLoaded w) (turnstile w) (scripts w ++ [scriptSrc])
       (calls w ++ [AppendScript scriptSrc])).

(** [loadTurnstile()]; [None] is [typeof window === "undefined"]. *)
Definition loadTurnstile (w : option Window) : LoadPromise * option Window :=
  match w with
  | None => (Resolved, None)
  | Some w => let (p, w') := loadTurnstileIn w in (p, Some w')
  end.

(** [s.onload]: sets the flag; the pending promise resolves. *)
Definition script_onload (w : Window) : Window :=
  mkWindow true (turnstile w) (scripts w) (calls w).

(** [s.onerror]: logs; the pending promise rejects. *)
Definition script_onerror (w : Window) : Window :=
  perform (Console Error (js "Failed to load Turnstile script")) w.

(** A page lifetime as the loader sees it: calls of [loadTurnstile] and
    the events of the script element. *)
Inductive LoaderEvent := CallLoad | ScriptLoad | ScriptError.

Definition loaderStep (w : Window) (e : LoaderEvent) : Window :=
  match e with
  | CallLoad => snd (loadTurnstileIn w)
  | ScriptLoad => script_onload w
  | ScriptError => script_onerror w
  end.

Definition lifetime (es : list LoaderEvent) (w : Window) : Window :=
  fold_left loaderStep es w.

(** The script elements the loader appended, from the log. *)
Definition appended (w : Window) : list jsstring :=
  omap (fun e => match e with AppendScript s => Some s | _ => None end)
    (calls w).

(** [n] calls of [loadTurnstile] in a row: the promises and the final
    state. *)
Fixpoint loadTimes (n : nat) (w : option Window)
  : list LoadPromise * option Window :=
  match n with
  | O => ([], w)
  | S n' =>
      let (p, w1) := loadTurnstile w in
      let (ps, w2) := loadTimes n' w1 in
      (p :: ps, w2)
  end.

(** ** Handlers as state transformers

    A handler runs over the component state and the browser.  Its
    statements complete normally, by [return], or by throwing, as
    JavaScript completions do. *)

Record World := mkWorld {
  form : ContactForm;
  window : Window;
}.

Inductive Completion (A : Type) :=
| Normal (a : A)
| Returned
| Thrown (e : jsstring).
Arguments Normal {A} a.
Arguments Returned {A}.
Arguments Thrown {A} e.

Definition Act (A : Type) : Type := World -> Completion A * World.

Definition ret {A} (a : A) : Act A := fun w => (Normal a, w).

Definition bind {A B} (m : Act A) (k : A -> Act B) : Act B := fun w =>
  match m w with
  | (Normal a, w') => k a w'
  | (Returned, w') => (Returned, w')
  | (Thrown e, w') => (Thrown e, w')
  end.

(** [return;] *)
Definition return_ {A} : Act A := fun w => (Returned, w).

(** [throw new Error(e)], or a rejected promise under [await]. *)
Definition throw {A} (e : jsstring) : Act A := fun w => (Thrown e, w).

(** [try { body } catch { handler }]: a [return] inside [body] leaves
    the function, a throw runs [handler]. *)
Definition try_catch {A} (body handler : Act A) : Act A := fun w =>
  match body w with
  | (Thrown _, w') => handler w'
  | r => r
  end.

Declare Scope act_scope.
Delimit Scope act_scope with act.
Bind Scope act_scope with Act.
Notation "'do' x <- m ; k" := (bind m (fun x => k))
  (at level 10, x name, m at level 100, k at level 200) : act_scope.
Notation "m1 ;; m2" := (bind m1 (fun _ => m2))
  (at level 100, m2 at level 200, right associativity) : act_scope.

(** The state a handler leaves behind; how it completed is dropped, as
    React drops the value of an event handler. *)
Definition run {A} (m : Act A) (w : World) : World := snd (m w).

Definition modifyForm (f : ContactForm -> ContactForm) : Act unit :=
  fun w => (Normal tt, mkWorld (f (form w)) (window w)).

Definition effect (e : Effect) : Act unit :=
  fun w => (Normal tt, mkWorld (form w) (perform e (window w))).

(** [window.turnstile], as the truth value the guards take of it. *)
Definition windowTurnstile : Act bool :=
  fun w => (Normal (turnstile (window w)), w).

Definition setFormData (d : FormData) : Act unit :=
  modifyForm (fun c =>
    mkContactForm d (errors c) (status c) (feedback c) (turnstileId c)
      (turnstileReady c)).

Definition setErrors (e : Errors) : Act unit :=
  modifyForm (fun c =>
    mkContactForm (formData c) e (status c) (feedback c) (turnstileId c)
      (turnstileReady c)).

Definition setStatus (s : Status) : Act unit :=
  modifyForm (fun c =>
    mkContactForm (formData c) (errors c) s (feedback c) (turnstileId c)
      (turnstileReady c)).

Definition setFeedback (m : jsstring) : Act unit :=
  modifyForm (fun c =>
    mkContactForm (formData c) (errors c) (status c) m (turnstileId c)
      (turnstileReady c)).

Definition setTurnstileId (i : option jsstring) : Act unit :=
  modifyForm (fun c =>
    mkContactForm (formData c) (errors c) (status c) (feedback c) i
      (turnstileReady c)).

Definition setTurnstileReady (b : bool) : Act unit :=
  modifyForm (fun c =>
    mkContactForm (formData c) (errors c) (status c) (feedback c)
      (turnstileId c) b).

(** The updater forms [setFormData(prev => ...)] and
    [setErrors(prev => ...)]. *)
Definition updateFormData (f : FormData -> FormData) : Act unit :=
  modifyForm (fun c =>
    mkContactForm (f (formData c)) (errors c) (status c) (feedback c)
      (turnstileId c) (turnstileReady c)).

Definition updateErrors (f : Errors -> Errors) : Act unit :=
  modifyForm (fun c =>
    mkContactForm (formData c) (f (errors c)) (status c) (feedback c)
      (turnstileId c) (turnstileReady c)).

Local Open Scope act_scope.

(** ** Mounting the widget *)

Inductive ScriptOutcome := ScriptLoads | ScriptFails.
Inductive RenderOutcome :=
| RenderReturns (id : jsstring)
| RenderThrows (e : jsstring).

(** What the environment does during the mount effect: whether the
    cleanup ran before the timer fired and before the loader settled,
    what becomes of an appended script, whether [captchaRef.current] is
    set, and what [window.turnstile.render] does. *)
Record MountOutcomes := mkMountOutcomes {
  cancelledAtTimer : bool;
  scriptOutcome : ScriptOutcome;
  cancelledAfterLoad : bool;
  captchaMounted : bool;
  renderOutcome : RenderOutcome;
}.

(** [await loadTurnstile()] *)
Definition awaitLoadTurnstile (o : ScriptOutcome) : Act unit := fun w =>
  let (p, win) := loadTurnstileIn (window w) in
  match p with
  | Resolved => (Normal tt, mkWorld (form w) win)
  | Pending =>
      match o with
      | ScriptLoads => (Normal tt, mkWorld (form w) (script_onload win))
      | ScriptFails =>
          (Thrown (js "Turnstile script failed to load"),
           mkWorld (form w) (script_onerror win))
      end
  end.

(** [window.turnstile.render(captchaRef.current, {...})] *)
Definition renderWidget (sitekey : jsstring) (o : RenderOutcome)
  : Act jsstring :=
  effect (Render sitekey) ;;
  match o with
  | RenderReturns id => ret id
  | RenderThrows e => throw e
  end.

(** The three callbacks registered with [render]. *)
Definition widgetCallback : Act unit := setTurnstileReady true.

Definition widgetErrorCallback : Act unit :=
  effect (Console Warn (js "Turnstile error")) ;; setTurnstileReady false.

Definition widgetTimeoutCallback : Act unit :=
  effect (Console Warn (js "Turnstile timeout")) ;; setTurnstileReady false.

(** The body of the timer callback of the first [useEffect]. *)
Definition initTurnstile (siteKey : option jsstring) (o : MountOutcomes)
  : Act unit :=
  if cancelledAtTimer o then return_ else
  match siteKey with
  | None => return_
  | Some key =>
    if negb (truthy key) then return_ else
    try_catch
      (awaitLoadTurnstile (scriptOutcome o) ;;
       if cancelledAfterLoad o then return_ else
       do api <- windowTurnstile ;
       if negb api then
         effect (Console Error (js "Turnstile API not available")) ;; return_
       else
       if negb (captchaMounted o) then
         effect (Console Error (js "Turnstile ref not mounted")) ;; return_
       else
       do id <- renderWidget key (renderOutcome o) ;
       setTurnstileId (Some id) ;;
       setTurnstileReady true ;;
       effect (Console Log (js "Turnstile initialized successfully")))
      (effect (Console Error (js "Failed to initialize Turnstile:")) ;;
       setTurnstileReady false)
  end.

(** The [disabled] attribute of the submit button. *)
Definition submitDisabled (siteKey : option jsstring) (c : ContactForm)
  : bool :=
  Status_eqb (status c) submitting
  || (truthy_opt siteKey && negb (turnstileReady c)).

(** The [disabled] attribute of the fieldset. *)
Definition fieldsetDisabled (c : ContactForm) : bool :=
  Status_eqb (status c) submitting.

(** ** Editing and validating *)

(** [handleChange(field)(e)], with [e.target.value = value]. *)
Definition handleChange (field : Key.t) (value : jsstring) : Act unit :=
  updateFormData (setField field value) ;;
  updateErrors (fun prev => <[field := None]> prev).

(** [validate()], within the render whose draft is [d]. *)
Definition validate (d : FormData) : Act bool :=
  let e := newErrors d in
  setErrors e ;;
  ret (noKeys e).

(** ** Submitting *)

(** What [window.turnstile.execute] ends in: the token callback, the
    error callback or the timeout callback. *)
Inductive ExecuteOutcome :=
| ExecuteToken (t : jsstring)
| ExecuteError
| ExecuteTimeout.

(** What [response.json()] ends in.  A body that is not JSON rejects;
    [null] parses, and reading a property of it throws; of any other value
    only the [error] property is read, which the endpoint declares as a
    string and which is [undefined] ([None]) when absent. *)
Inductive JsonOutcome :=
| JsonRejects
| JsonNull
| JsonValue (error_field : option jsstring).

Record Response := mkResponse {
  http_status : N;
  json : JsonOutcome;
}.

(** [response.ok] *)
Definition ok (r : Response) : bool :=
  (200 <=? http_status r) && (http_status r <=? 299).
Arguments ok : simpl never.

(** What [fetch] ends in: a response, or a rejection. *)
Inductive FetchOutcome :=
| FetchResponds (r : Response)
| FetchRejects (e : jsstring).

Record SubmitOutcomes := mkSubmitOutcomes {
  executeOutcome : ExecuteOutcome;
  fetchOutcome : FetchOutcome;
}.

(** [if (window.turnstile && turnstileId) window.turnstile.reset(turnstileId)] *)
Definition resetWidget (id : option jsstring) : Act unit :=
  do api <- windowTurnstile ;
  match id with
  | Some i => if api && truthy i then effect (Reset i) else ret tt
  | None => ret tt
  end.

(** The promise awaited for the token. *)
Definition executeWidget (i : jsstring) (o : ExecuteOutcome) : Act jsstring :=
  do api <- windowTurnstile ;
  if negb api then throw (js "Turnstile not available") else
  effect (Execute i (js "form_submit")) ;;
  match o with
  | ExecuteToken t => ret t
  | ExecuteError => throw (js "turnstile-error")
  | ExecuteTimeout => throw (js "turnstile-timeout")
  end.

(** The object serialised into the request body. *)
Definition payload (d : FormData) (phoneDigits turnstileToken : jsstring)
  : list (jsstring * jsstring) :=
  [ (js "name", name d);
    (js "email", email d);
    (js "phone", phoneDigits);
    (js "projectType", projectType d);
    (js "city", city d);
    (js "property", property d);
    (js "estimatedCloseDate", estimatedCloseDate d);
    (js "company", company d);
    (js "timeline", timeline d);
    (js "details", message d);
    (js "turnstileToken", turnstileToken) ].

(** [await fetch("/api/contact", {...})] *)
Definition fetchContact (b : list (jsstring * jsstring)) (o : FetchOutcome)
  : Act Response :=
  effect (Fetch (mkRequest (js "/api/contact") (js "POST")
                   [(js "Content-Type", js "application/json")] b)) ;;
  match o with
  | FetchResponds r => ret r
  | FetchRejects e => throw e
  end.

(** [(await response.json().catch(() => ({ error: 'Failed to submit form' }))).error] *)
Definition errorDataError (r : Response) : Act (option jsstring) :=
  match json r with
  | JsonRejects => ret (Some (js "Failed to submit form"))
  | JsonNull => throw (js "TypeError")
  | JsonValue e => ret e
  end.

(** [v || fallback] *)
Definition orElse (v : option jsstring) (fallback : jsstring) : jsstring :=
  match v with
  | Some s => if truthy s then s else fallback
  | None => fallback
  end.

(** [handleSubmit(e)], within the render whose state is [c]: the draft,
    the widget identifier and the readiness flag are read from [c]. *)
Definition handleSubmit (siteKey : option jsstring) (o : SubmitOutcomes)
    (c : ContactForm) : Act unit :=
  do valid <- validate (formData c) ;
  if negb valid then
    setFeedback (js "Please complete all required fields.") ;; return_
  else
  setStatus submitting ;;
  setErrors ∅ ;;
  setFeedback [] ;;
  try_catch
    (do api <- windowTurnstile ;
     if truthy_opt siteKey
        && (negb (turnstileReady c) || negb api
            || negb (truthy_opt (turnstileId c)))
     then
       setFeedback (js "Please complete the security verification.") ;;
       setStatus error ;;
       return_
     else
     do turnstileToken <-
       match turnstileId c with
       | Some i =>
           if truthy_opt siteKey && api && truthy i then
             try_catch
               (effect (Reset i) ;;
                executeWidget i (executeOutcome o))
               (effect (Console Error (js "Turnstile execution error:")) ;;
                setFeedback
                  (js "Security verification failed. Please try again.") ;;
                setStatus error ;;
                resetWidget (turnstileId c) ;;
                return_)
           else ret []
       | None => ret []
       end ;
     let phoneDigits :=
       replace_class_all (fun ch => negb (is_digit ch)) (phone (formData c)) in
     do response <-
       fetchContact (payload (formData c) phoneDigits turnstileToken)
         (fetchOutcome o) ;
     if ok response then
       setFormData emptyForm ;;
       resetWidget (turnstileId c) ;;
       setStatus success ;;
       setFeedback
         (js "Thank you. A Los Angeles exchange specialist will follow up within one business day.")
     else
       do e <- errorDataError response ;
       setFeedback (orElse e (js "Failed to submit form. Please try again.")) ;;
       setStatus error ;;
       resetWidget (turnstileId c))
    (effect (Console Error (js "Error submitting form:")) ;;
     setFeedback
       (js "An error occurred. Please try again or contact us directly.") ;;
     setStatus error ;;
     resetWidget (turnstileId c)).

(** A click on the submit button in the state [w]: the handler of the
    current render runs to its end. *)
Definition submit (siteKey : option jsstring) (o : SubmitOutcomes)
    (w : World) : World :=
  run (handleSubmit siteKey o (form w)) w.

(** The requests sent so far, oldest first. *)
Definition requests (w : World) : list Request :=
  omap (fun e => match e with Fetch r => Some r | _ => None end)
    (calls (window w)).

(** [obj[key]] on the object of a request body. *)
Fixpoint lookupKey (k : jsstring) (o : list (jsstring * jsstring))
  : option jsstring :=
  match o with
  | [] => None
  | (k', v) :: o' => if bool_decide (k = k') then Some v else lookupKey k o'
  end.

(** The draft passes [validate]. *)
Definition valid (d : FormData) : bool := noKeys (newErrors d).

(** The options of the [projectType] select that name a service. *)
Definition projectTypeOptions : list jsstring :=
  [ js "Forward Exchange";
    js "Reverse Exchange";
    js "Qualified Intermediary Services";
    js "Property Identification";
    js "NNN Property Identification";
    js "Exchange Consultation";
    js "Form 8824 Preparation";
    js "Boot Analysis" ].

Definition sampleDraft : FormData :=
  {| name := js "Ada Lovelace"; email := js "ada@example.com";
     phone := js "(818) 412-8402"; projectType := js "Forward Exchange";
     city := js "Los Angeles"; property := []; estimatedCloseDate := [];
     company := []; timeline := js "45 days"; message := js "Hello" |}.

(** Empty or whitespace-only. *)
Definition blank (s : jsstring) : Prop := Forall (fun c => is_space c = true) s.

(** The fields [validate] requires. *)
Definition required (k : Key.t) : Prop :=
  k = Key.name \/ k = Key.email \/ k = Key.phone \/ k = Key.projectType.

(** The digits of a string, in order. *)
Fixpoint digitsOf (s : jsstring) : jsstring :=
  match s with
  | [] => []
  | c :: s' => if is_digit c then c :: digitsOf s' else digitsOf s'
  end.

(** The form just after the sample draft was typed in, on a page where
    no widget exists. *)
Definition sampleWorld : World :=
  mkWorld (mkContactForm sampleDraft ∅ idle [] None false) freshWindow.

(** The same with the widget rendered as [widget-1] and ready. *)
Definition readyWorld : World :=
  mkWorld
    (mkContactForm sampleDraft ∅ idle [] (Some (js "widget-1")) true)
    (mkWindow true true [scriptSrc] [AppendScript scriptSrc]).

(** The backend answers HTTP 500 with the body [{"error":"Duplicate lead"}]. *)
Definition duplicateLead : SubmitOutcomes :=
  mkSubmitOutcomes (ExecuteToken (js "token-1"))
    (FetchResponds
       (mkResponse 500 (JsonValue (Some (js "Duplicate lead"))))).

(** The backend answers HTTP 500 with the body [{"error":""}]. *)
Definition emptyError : SubmitOutcomes :=
  mkSubmitOutcomes (ExecuteToken (js "token-1"))
    (FetchResponds (mkResponse 500 (JsonValue (Some [])))).

(** The backend answers HTTP 200. *)
Definition accepted : SubmitOutcomes :=
  mkSubmitOutcomes (ExecuteToken (js "token-1"))
    (FetchResponds (mkResponse 200 (JsonValue None))).

(** A draft that passes validation although its projectType is none of
    the eight options of the select element. *)
Definition offListDraft : FormData :=
  setField Key.projectType (js "Delaware Statutory Trust") sampleDraft.

(** Once the flag is set or a matching element is in the document, no
    event of the loader changes the document. *)
Definition settled (w : Window) : Prop :=
  _turnstileLoaded w = true \/ existingScript w = true.

(** The key under which the request body carries a field of the draft:
    the field's own name, except that [message] travels as [details]. *)
Definition wireKey (k : Key.t) : jsstring :=
  match k with
  | Key.name => js "name"
  | Key.email => js "email"
  | Key.phone => js "phone"
  | Key.projectType => js "projectType"
  | Key.city => js "city"
  | Key.property => js "property"
  | Key.estimatedCloseDate => js "estimatedCloseDate"
  | Key.company => js "company"
  | Key.timeline => js "timeline"
  | Key.message => js "details"
  end.

(** [resetWidget], as the change it makes to the browser. *)
Definition resetIn (id : option jsstring) (win : Window) : Window :=
  match id with
  | Some i => if turnstile win && truthy i then perform (Reset i) win else win
  | None => win
  end.

(** The state [handleSubmit] leaves once it is past validation: errors
    cleared, widget state as in the render [c]. *)
Definition settled_form (c : ContactForm) (d : FormData) (st : Status)
    (msg : jsstring) : ContactForm :=
  mkContactForm d ∅ st msg (turnstileId c) (turnstileReady c).

(** [submit] with the control flow of [handleSubmit] laid out as one
    decision tree; [submit_flat] proves the two equal. *)
Definition submitFlat (siteKey : option jsstring) (o : SubmitOutcomes)
    (w : World) : World :=
  let c := form w in
  let d := formData c in
  let win := window w in
  if negb (valid d) then
    mkWorld
      (mkContactForm d (newErrors d) (status c)
         (js "Please complete all required fields.")
         (turnstileId c) (turnstileReady c))
      win
  else if truthy_opt siteKey
          && (negb (turnstileReady c) || negb (turnstile win)
              || negb (truthy_opt (turnstileId c)))
  then
    mkWorld
      (settled_form c d error
         (js "Please complete the security verification."))
      win
  else
    let verified :=
      truthy_opt siteKey && turnstile win && truthy_opt (turnstileId c) in
    let i := default [] (turnstileId c) in
    let win1 :=
      if verified
      then perform (Execute i (js "form_submit")) (perform (Reset i) win)
      else win in
    match (if verified then executeOutcome o else ExecuteToken []) with
    | ExecuteToken t =>
        let req :=
          mkRequest (js "/api/contact") (js "POST")
            [(js "Content-Type", js "application/json")]
            (payload d
               (replace_class_all (fun ch => negb (is_digit ch)) (phone d))
               t) in
        let win2 := perform (Fetch req) win1 in
        let caught :=
          mkWorld
            (settled_form c d error
               (js "An error occurred. Please try again or contact us directly."))
            (resetIn (turnstileId c)
               (perform (Console Error (js "Error submitting form:")) win2)) in
        match fetchOutcome o with
        | FetchResponds r =>
            if ok r then
              mkWorld
                (settled_form c emptyForm success
                   (js "Thank you. A Los Angeles exchange specialist will follow up within one business day."))
                (resetIn (turnstileId c) win2)
            else
              match json r with
              | JsonRejects =>
                  mkWorld
                    (settled_form c d error (js "Failed to submit form"))
                    (resetIn (turnstileId c) win2)
              | JsonNull => caught
              | JsonValue e =>
                  mkWorld
                    (settled_form c d error
                       (orElse e
                          (js "Failed to submit form. Please try again.")))
                    (resetIn (turnstileId c) win2)
              end
        | FetchRejects _ => caught
        end
    | _ =>
        mkWorld
          (settled_form c d error
             (js "Security verification failed. Please try again."))
          (perform (Reset i)
             (perform (Console Error (js "Turnstile execution error:"))
                win1))
    end.

(** ** Sessions

    What can happen to a mounted form, one event at a time: the timer of
    the mount effect fires, the widget invokes one of the callbacks
    registered with it, the third-party script defines or removes
    [window.turnstile], the user edits a field or submits.  Each handler
    runs to its end before the next event is taken. *)
Inductive UIEvent :=
| Mount (o : MountOutcomes)
| WidgetSuccess
| WidgetError
| WidgetTimeout
| SetTurnstile (present : bool)
| Change (field : Key.t) (value : jsstring)
| Submit (o : SubmitOutcomes).

Definition uiStep (siteKey : option jsstring) (w : World) (e : UIEvent)
  : World :=
  match e with
  | Mount o => run (initTurnstile siteKey o) w
  | WidgetSuccess => run widgetCallback w
  | WidgetError => run widgetErrorCallback w
  | WidgetTimeout => run widgetTimeoutCallback w
  | SetTurnstile b =>
      mkWorld (form w)
        (mkWindow (_turnstileLoaded (window w)) b (scripts (window w))
           (calls (window w)))
  | Change k v => run (handleChange k v) w
  | Submit o => submit siteKey o w
  end.

Definition session (siteKey : option jsstring) (es : list UIEvent)
    (w : World) : World :=
  fold_left (uiStep siteKey) es w.

Definition isMount (e : UIEvent) : bool :=
  match e with Mount _ => true | _ => false end.

Definition isSubmit (e : UIEvent) : bool :=
  match e with Submit _ => true | _ => false end.

(** A call a form without verification may make: a console message, or
    a request whose token is the empty string. *)
Definition unverifiedCall (e : Effect) : Prop :=
  match e with
  | Fetch r => lookupKey (js "turnstileToken") (body r) = Some []
  | Console _ _ => True
  | _ => False
  end.

(** In a log of calls, every request comes right after an [execute] of
    the widget. *)
Fixpoint executedBeforeFetch (l : list Effect) : bool :=
  match l with
  | [] => true
  | Fetch _ :: _ => false
  | Execute _ _ :: l' =>
      match l' with
      | Fetch _ :: l'' => executedBeforeFetch l''
      | _ => executedBeforeFetch l'
      end
  | _ :: l' => executedBeforeFetch l'
  end.

Definition isFetch (e : Effect) : bool :=
  match e with Fetch _ => true | _ => false end.

(** What the loader reads and writes of the browser. *)
Definition loaderView (win : Window) : bool * list jsstring :=
  (_turnstileLoaded win, scripts win).

(** The strings a regular expression denotes. *)
Inductive regex_matches : Regex.t -> jsstring -> Prop :=
| MatchEps : regex_matches Regex.Eps []
| MatchClass (p : N -> bool) (c : N) :
    p c = true -> regex_matches (Regex.Class p) [c]
| MatchCat (r1 r2 : Regex.t) (s1 s2 : jsstring) :
    regex_matches r1 s1 -> regex_matches r2 s2 ->
    regex_matches (Regex.Cat r1 r2) (s1 ++ s2)
| MatchAltL (r1 r2 : Regex.t) (s : jsstring) :
    regex_matches r1 s -> regex_matches (Regex.Alt r1 r2) s
| MatchAltR (r1 r2 : Regex.t) (s : jsstring) :
    regex_matches r2 s -> regex_matches (Regex.Alt r1 r2) s
| MatchStarNil (r : Regex.t) : regex_matches (Regex.Star r) []
| MatchStarApp (r : Regex.t) (s1 s2 : jsstring) :
    regex_matches r s1 -> regex_matches (Regex.Star r) s2 ->
    regex_matches (Regex.Star r) (s1 ++ s2).

(** A part of an address: non-empty, with no whitespace and no [@]. *)
Definition emailPart (s : jsstring) : Prop :=
  s <> [] /\ Forall (fun c => not_space_at c = true) s.

(** * Properties *)

(** ** Strings *)

Section Strings.

Implicit Types s : jsstring.

Lemma trimStart_nil_iff s : trimStart s = [] <-> blank s.
Proof.
  unfold blank. induction s as [|c s IH]; simpl.
  - split; [constructor | reflexivity].
  - destruct (is_space c) eqn:E.
    + rewrite IH. split; [by constructor | by inversion 1].
    + split; [discriminate | inversion 1; congruence].
Qed.

Lemma trimStart_head s c s' :
  trimStart s = c :: s' -> is_space c = false.
Proof.
  induction s as [|a s IH]; simpl; [discriminate|].
  destruct (is_space a) eqn:E; [exact IH | congruence].
Qed.

Lemma trim_nil_iff s : trim s = [] <-> blank s.
Proof.
  unfold trim, trimEnd. split.
  - intros H. apply trimStart_nil_iff.
    apply (f_equal (@rev N)) in H. rewrite rev_involutive in H. simpl in H.
    apply trimStart_nil_iff in H. unfold blank in H.
    destruct (trimStart s) as [|c s'] eqn:E; [reflexivity|].
    apply trimStart_head in E.
    apply Forall_rev in H. rewrite rev_involutive in H.
    inversion H; congruence.
  - intros H. apply trimStart_nil_iff in H. by rewrite H.
Qed.

Lemma replace_nondigits s :
  replace_class_all (fun c => negb (is_digit c)) s = digitsOf s.
Proof.
  unfold replace_class_all.
  induction s as [|c s IH]; simpl; [reflexivity|].
  rewrite IH. by destruct (is_digit c).
Qed.

Lemma digitsOf_digits s : Forall (fun c => is_digit c = true) (digitsOf s).
Proof.
  induction s as [|c s IH]; simpl; [constructor|].
  destruct (is_digit c) eqn:E; [by constructor | exact IH].
Qed.

Lemma digitsOf_sublist s : sublist (digitsOf s) s.
Proof.
  induction s as [|c s IH]; simpl; [constructor|].
  destruct (is_digit c); by constructor.
Qed.

Lemma digitsOf_complete s c : c ∈ s -> is_digit c = true -> c ∈ digitsOf s.
Proof.
  induction s as [|a s IH]; simpl; [by inversion 1|].
  intros Hin Hd. apply elem_of_cons in Hin as [-> | Hin].
  - rewrite Hd. by left.
  - destruct (is_digit a); [right|]; by apply IH.
Qed.

End Strings.

(** ** Validation *)

Section Validation.

Variable d : FormData.

Ltac newErrors_cases :=
  destruct (truthy (trim (name d))),
           (truthy (trim (email d))),
           (Regex.test email_regex (trim (email d))),
           (truthy (trim (phone d))),
           (truthy (trim (projectType d)));
  by simplify_map_eq.

Lemma newErrors_name :
  newErrors d !! Key.name =
  if truthy (trim (name d)) then None else Some (Some (js "Required")).
Proof.
  unfold newErrors. newErrors_cases.
Qed.

Lemma newErrors_email :
  newErrors d !! Key.email =
  if truthy (trim (email d)) && Regex.test email_regex (trim (email d))
  then None else Some (Some (js "Invalid email")).
Proof.
  unfold newErrors. newErrors_cases.
Qed.

Lemma newErrors_phone :
  newErrors d !! Key.phone =
  if truthy (trim (phone d)) then None else Some (Some (js "Required")).
Proof.
  unfold newErrors. newErrors_cases.
Qed.

Lemma newErrors_projectType :
  newErrors d !! Key.projectType =
  if truthy (trim (projectType d)) then None
  else Some (Some (js "Required")).
Proof.
  unfold newErrors. newErrors_cases.
Qed.

End Validation.

Lemma noKeys_false (e : Errors) k v : e !! k = Some v -> noKeys e = false.
Proof.
  intros H. unfold noKeys.
  destruct (map_to_list e) as [|p l] eqn:E; [|reflexivity].
  apply map_to_list_empty_iff in E. subst e. by rewrite lookup_empty in H.
Qed.


Lemma validate_eq (d : FormData) (w : World) :
  validate d w =
  (Normal (valid d),
   mkWorld
     (mkContactForm (formData (form w)) (newErrors d) (status (form w))
        (feedback (form w)) (turnstileId (form w)) (turnstileReady (form w)))
     (window w)).
Proof. reflexivity. Qed.

Lemma newErrors_required (d : FormData) (k : Key.t) :
  required k -> blank (getField k d) ->
  exists msg, newErrors d !! k = Some (Some msg).
Proof.
  intros Hk Hb. apply trim_nil_iff in Hb.
  destruct Hk as [-> | [-> | [-> | ->]]]; simpl in Hb.
  - rewrite newErrors_name, Hb. by eexists.
  - rewrite newErrors_email, Hb. by eexists.
  - rewrite newErrors_phone, Hb. by eexists.
  - rewrite newErrors_projectType, Hb. by eexists.
Qed.

(** C6.  A draft whose name, email, phone or projectType is empty or
    consists of whitespace only fails validation: [validate] returns
    [false], and the error mapping it stores has an entry for that
    field. *)
Theorem validate_rejects_blank_required
    (d : FormData) (k : Key.t) (w : World) :
  required k ->
  blank (getField k d) ->
  fst (validate d w) = Normal false /\
  exists msg, errors (form (snd (validate d w))) !! k = Some (Some msg).
Proof.
  intros Hk Hb. rewrite validate_eq. simpl.
  destruct (newErrors_required d k Hk Hb) as [msg Hmsg].
  split; [|by exists msg].
  unfold valid. by rewrite (noKeys_false _ _ _ Hmsg).
Qed.

Lemma validate_rejects_blank_required_witness :
  required Key.phone /\
  blank (getField Key.phone
           (setField Key.phone (js "   ") sampleDraft)) /\
  (fst (validate (setField Key.phone (js "   ") sampleDraft)
          (mkWorld initialForm freshWindow))
   = Normal false /\
   exists msg,
     errors (form (snd (validate (setField Key.phone (js "   ") sampleDraft)
                          (mkWorld initialForm freshWindow))))
       !! Key.phone = Some (Some msg)).
Proof.
  assert (Hk : required Key.phone) by (right; right; left; reflexivity).
  assert (Hb : blank (getField Key.phone
                        (setField Key.phone (js "   ") sampleDraft)))
    by (repeat constructor).
  split; [exact Hk|]. split; [exact Hb|].
  exact (validate_rejects_blank_required _ _ _ Hk Hb).
Defined.

(** C1, counterexample.  The draft [offListDraft] has a non-empty
    projectType outside the eight service names, and [validate] accepts
    it: it returns [true] and stores no error for the field. *)
Lemma validate_accepts_unlisted_projectType :
  projectType offListDraft <> [] /\
  ~ In (projectType offListDraft) projectTypeOptions /\
  fst (validate offListDraft (mkWorld initialForm freshWindow))
  = Normal true /\
  errorOf Key.projectType
    (errors (form (snd (validate offListDraft
                          (mkWorld initialForm freshWindow)))))
  = None.
Proof.
  split; [discriminate|]. split.
  - intros H. vm_compute in H. intuition discriminate.
  - split; reflexivity.
Qed.

(** Each of the eight options of the select element passes the check. *)
Lemma projectTypeOptions_accepted (d : FormData) :
  In (projectType d) projectTypeOptions ->
  newErrors d !! Key.projectType = None.
Proof.
  intros H. rewrite newErrors_projectType.
  repeat (destruct H as [<- | H]; [reflexivity|]). destruct H.
Qed.

(** C1, amended.  [validate] stores an error for projectType exactly
    when the field is empty after trimming; whether the value is one of
    the options of the select element is not examined. *)
Theorem validate_projectType_iff_nonblank (d : FormData) (w : World) :
  errorOf Key.projectType (errors (form (snd (validate d w)))) = None
  <-> trim (projectType d) <> [].
Proof.
  rewrite validate_eq. unfold errorOf. simpl.
  rewrite newErrors_projectType.
  destruct (trim (projectType d)); simpl; split; congruence.
Qed.

(** ** Editing a field *)

Lemma getField_setField (k : Key.t) (v : jsstring) (d : FormData) :
  getField k (setField k v d) = v.
Proof. by destruct k. Qed.

Lemma getField_setField_ne (k k' : Key.t) (v : jsstring) (d : FormData) :
  k' <> k -> getField k' (setField k v d) = getField k' d.
Proof. by destruct k, k'. Qed.

Lemma handleChange_eq (field : Key.t) (value : jsstring) (w : World) :
  run (handleChange field value) w =
  mkWorld
    (mkContactForm (setField field value (formData (form w)))
       (<[field := None]> (errors (form w))) (status (form w))
       (feedback (form w)) (turnstileId (form w)) (turnstileReady (form w)))
    (window w).
Proof. reflexivity. Qed.

(** C8.  The change handler of a field sets the draft's value of that
    field to the input, makes the error of that field read as undefined,
    and leaves the draft value and the error entry of every other field
    as they were; status, feedback, widget state and the browser are
    untouched as well. *)
Theorem handleChange_frame (field : Key.t) (value : jsstring) (w : World) :
  let w' := run (handleChange field value) w in
  getField field (formData (form w')) = value /\
  errorOf field (errors (form w')) = None /\
  (forall k, k <> field ->
     getField k (formData (form w')) = getField k (formData (form w)) /\
     errors (form w') !! k = errors (form w) !! k) /\
  status (form w') = status (form w) /\
  feedback (form w') = feedback (form w) /\
  turnstileId (form w') = turnstileId (form w) /\
  turnstileReady (form w') = turnstileReady (form w) /\
  window w' = window w.
Proof.
  intros w'. subst w'. rewrite handleChange_eq. simpl.
  split; [apply getField_setField|].
  split; [unfold errorOf; by rewrite lookup_insert_eq|].
  split; [|done].
  intros k Hk. split.
  - by apply getField_setField_ne.
  - by rewrite lookup_insert_ne.
Qed.

(** ** The script loader *)

Lemma scriptSrc_matches : startsWith scriptPrefix scriptSrc = true.
Proof. reflexivity. Qed.

Lemma loadTurnstileIn_loaded (w : Window) :
  _turnstileLoaded w = true -> loadTurnstileIn w = (Resolved, w).
Proof. intros H. unfold loadTurnstileIn. by rewrite H. Qed.

Lemma loadTimes_loaded (n : nat) (w : Window) :
  _turnstileLoaded w = true ->
  loadTimes n (Some w) = (replicate n Resolved, Some w).
Proof.
  intros H. induction n as [|n IH]; simpl; [reflexivity|].
  rewrite (loadTurnstileIn_loaded w H), IH. reflexivity.
Qed.

Lemma loaderStep_settled (w : Window) (e : LoaderEvent) :
  settled w ->
  settled (loaderStep w e) /\
  scripts (loaderStep w e) = scripts w /\
  appended (loaderStep w e) = appended w.
Proof.
  intros [H|H]; destruct e; simpl; unfold loadTurnstileIn, settled.
  - rewrite H. simpl. auto.
  - simpl. auto.
  - unfold appended. simpl. rewrite omap_app. simpl.
    rewrite app_nil_r. auto.
  - destruct (_turnstileLoaded w) eqn:E; simpl; [auto|].
    rewrite H. simpl. auto.
  - simpl. auto.
  - unfold existingScript, appended in *. simpl. rewrite omap_app. simpl.
    rewrite app_nil_r. auto.
Qed.

Lemma lifetime_cons (e : LoaderEvent) (es : list LoaderEvent) (w : Window) :
  lifetime (e :: es) w = lifetime es (loaderStep w e).
Proof. reflexivity. Qed.

Lemma lifetime_settled (es : list LoaderEvent) (w : Window) :
  settled w ->
  scripts (lifetime es w) = scripts w /\
  appended (lifetime es w) = appended w.
Proof.
  revert w. induction es as [|e es IH]; intros w H; [done|].
  destruct (loaderStep_settled w e H) as (H1 & H2 & H3).
  rewrite lifetime_cons. destruct (IH _ H1) as [-> ->]. done.
Qed.

(** Over any sequence of loader events the document gains no script
    element, or exactly the one the loader creates. *)
Lemma lifetime_appends_once (es : list LoaderEvent) (w : Window) :
  (scripts (lifetime es w) = scripts w /\
   appended (lifetime es w) = appended w) \/
  (scripts (lifetime es w) = scripts w ++ [scriptSrc] /\
   appended (lifetime es w) = appended w ++ [scriptSrc]).
Proof.
  revert w. induction es as [|e es IH]; intros w; [by left|].
  rewrite lifetime_cons. destruct e; simpl.
  - unfold loadTurnstileIn.
    destruct (_turnstileLoaded w) eqn:E1; simpl; [apply IH|].
    destruct (existingScript w) eqn:E2; simpl.
    + apply (IH (mkWindow true (turnstile w) (scripts w) (calls w))).
    + right.
      match goal with |- context [lifetime es ?x] =>
        destruct (lifetime_settled es x) as [-> ->] end.
      * right. unfold existingScript. cbn [scripts]. rewrite existsb_app.
        cbn [existsb]. rewrite scriptSrc_matches. by rewrite orb_true_r.
      * unfold appended. simpl. rewrite omap_app. done.
  - apply (IH (script_onload w)).
  - destruct (IH (script_onerror w)) as [[-> ->]|[-> ->]];
      [left|right]; unfold appended; simpl; rewrite omap_app; simpl;
      by rewrite app_nil_r.
Qed.

(** C9.  In a state reached by any history of loader events in which the
    loaded flag is set, any number of further calls of [loadTurnstile]
    each return a resolved promise and leave the browser as it is, the
    document included; and over the whole history the loader has added
    at most one script element, the matching one. *)
Theorem loadTurnstile_idempotent
    (w0 : Window) (es : list LoaderEvent) (n : nat) :
  _turnstileLoaded (lifetime es w0) = true ->
  loadTimes n (Some (lifetime es w0))
  = (replicate n Resolved, Some (lifetime es w0)) /\
  ((scripts (lifetime es w0) = scripts w0 /\
    appended (lifetime es w0) = appended w0) \/
   (scripts (lifetime es w0) = scripts w0 ++ [scriptSrc] /\
    appended (lifetime es w0) = appended w0 ++ [scriptSrc])).
Proof.
  intros H. split.
  - by apply loadTimes_loaded.
  - apply lifetime_appends_once.
Qed.

Lemma loadTurnstile_idempotent_witness :
  _turnstileLoaded
    (lifetime [CallLoad; CallLoad; ScriptLoad; CallLoad] freshWindow) = true /\
  (loadTimes 3
     (Some (lifetime [CallLoad; CallLoad; ScriptLoad; CallLoad] freshWindow))
   = (replicate 3 Resolved,
      Some (lifetime [CallLoad; CallLoad; ScriptLoad; CallLoad] freshWindow))
   /\
   ((scripts (lifetime [CallLoad; CallLoad; ScriptLoad; CallLoad] freshWindow)
     = scripts freshWindow /\
     appended (lifetime [CallLoad; CallLoad; ScriptLoad; CallLoad] freshWindow)
     = appended freshWindow) \/
    (scripts (lifetime [CallLoad; CallLoad; ScriptLoad; CallLoad] freshWindow)
     = scripts freshWindow ++ [scriptSrc] /\
     appended (lifetime [CallLoad; CallLoad; ScriptLoad; CallLoad] freshWindow)
     = appended freshWindow ++ [scriptSrc]))).
Proof.
  split; [reflexivity|].
  apply (loadTurnstile_idempotent freshWindow
           [CallLoad; CallLoad; ScriptLoad; CallLoad] 3).
  reflexivity.
Defined.

(** ** Mounting the widget *)

Lemma loadTurnstileIn_turnstile (w : Window) :
  turnstile (snd (loadTurnstileIn w)) = turnstile w.
Proof.
  unfold loadTurnstileIn.
  by destruct (_turnstileLoaded w), (existingScript w).
Qed.

(** C10.  When a site key is configured and the mount effect gets as far
    as the render call (not cancelled, loader resolved, widget API and
    mount point present) and the call returns an identifier, the effect
    itself stores the identifier and sets the readiness flag, with no
    widget callback having run; from then on the submit button is
    disabled only while a submission is in flight. *)
Theorem initTurnstile_ready_after_render
    (key id : jsstring) (o : MountOutcomes) (w : World) :
  truthy key = true ->
  cancelledAtTimer o = false ->
  cancelledAfterLoad o = false ->
  fst (loadTurnstileIn (window w)) = Resolved \/
    scriptOutcome o = ScriptLoads ->
  turnstile (window w) = true ->
  captchaMounted o = true ->
  renderOutcome o = RenderReturns id ->
  let w' := run (initTurnstile (Some key) o) w in
  turnstileId (form w') = Some id /\
  turnstileReady (form w') = true /\
  status (form w') = status (form w) /\
  submitDisabled (Some key) (form w') = fieldsetDisabled (form w) /\
  (status (form w) <> submitting -> submitDisabled (Some key) (form w') = false).
Proof.
  intros Hkey Hc1 Hc2 Hload Hapi Hmount Hrender w'.
  assert (E : form w' =
              mkContactForm (formData (form w)) (errors (form w))
                (status (form w)) (feedback (form w)) (Some id) true).
  { subst w'. unfold run, initTurnstile.
    rewrite Hc1, Hkey, Hc2, Hmount, Hrender. cbn [negb].
    unfold try_catch, bind at 1, awaitLoadTurnstile.
    pose proof (loadTurnstileIn_turnstile (window w)) as Ht.
    destruct (loadTurnstileIn (window w)) as [p win] eqn:El.
    simpl in Ht, Hload. rewrite Hapi in Ht.
    assert (Hp : p = Resolved \/ scriptOutcome o = ScriptLoads) by exact Hload.
    unfold bind, windowTurnstile, renderWidget, effect, ret, setTurnstileId,
      setTurnstileReady, modifyForm, bind.
    destruct p.
    - cbn. rewrite Ht. reflexivity.
    - destruct Hp as [Hp|Hp]; [discriminate|]. rewrite Hp.
      cbn. rewrite Ht. reflexivity. }
  rewrite E. unfold submitDisabled, fieldsetDisabled. simpl.
  rewrite Hkey. simpl. rewrite orb_false_r.
  repeat split; try reflexivity.
  intros Hs. by destruct (status (form w)).
Qed.

Lemma initTurnstile_ready_after_render_witness :
  let o := mkMountOutcomes false ScriptLoads false true
             (RenderReturns (js "widget-1")) in
  let w := mkWorld initialForm (mkWindow false true [] []) in
  let w' := run (initTurnstile (Some (js "site-key")) o) w in
  submitDisabled (Some (js "site-key")) (form w) = true /\
  turnstileId (form w') = Some (js "widget-1") /\
  turnstileReady (form w') = true /\
  status (form w') = status (form w) /\
  submitDisabled (Some (js "site-key")) (form w') = fieldsetDisabled (form w) /\
  (status (form w) <> submitting ->
   submitDisabled (Some (js "site-key")) (form w') = false).
Proof.
  intros o w w'. split; [reflexivity|].
  apply (initTurnstile_ready_after_render (js "site-key") (js "widget-1") o w);
    try reflexivity.
  right. reflexivity.
Defined.

(** ** Submitting *)

Ltac unfold_act :=
  unfold try_catch, bind, windowTurnstile, resetWidget, executeWidget,
    fetchContact, errorDataError, effect, ret, return_, throw,
    setFormData, setErrors, setStatus, setFeedback, modifyForm.

Ltac unfold_act_in H :=
  unfold try_catch, bind, windowTurnstile, resetWidget, executeWidget,
    fetchContact, errorDataError, effect, ret, return_, throw,
    setFormData, setErrors, setStatus, setFeedback, modifyForm in H.

(** C2.  With a site key configured and the session not ready (no
    widget API, no widget identifier, or the readiness flag false),
    submitting a valid draft sends no request, ends in status [error] and
    shows the security-verification message. *)
Theorem submit_not_ready
    (siteKey : option jsstring) (o : SubmitOutcomes) (w : World) :
  valid (formData (form w)) = true ->
  truthy_opt siteKey = true ->
  turnstile (window w) = false \/
    truthy_opt (turnstileId (form w)) = false \/
    turnstileReady (form w) = false ->
  let w' := submit siteKey o w in
  requests w' = requests w /\
  calls (window w') = calls (window w) /\
  status (form w') = error /\
  feedback (form w') = js "Please complete the security verification.".
Proof.
  intros Hv Hk Hn w'.
  assert (G : negb (turnstileReady (form w)) || negb (turnstile (window w))
              || negb (truthy_opt (turnstileId (form w))) = true).
  { destruct (turnstileReady (form w)), (turnstile (window w)),
      (truthy_opt (turnstileId (form w))); try reflexivity.
    by destruct Hn as [?|[?|?]]. }
  assert (E : w' =
              mkWorld
                (mkContactForm (formData (form w)) ∅ error
                   (js "Please complete the security verification.")
                   (turnstileId (form w)) (turnstileReady (form w)))
                (window w)).
  { subst w'. unfold submit, run, handleSubmit.
    unfold bind at 1. rewrite validate_eq, Hv, Hk. cbn [negb andb].
    unfold_act. cbn. rewrite G. reflexivity. }
  rewrite E. done.
Qed.

(** What one submission does, by cases: either no request is sent, or
    exactly one is, carrying the draft with the phone reduced to its
    digits and the token just obtained (empty when no widget is asked),
    and the component ends in the state the outcome of [fetch] decides. *)
Lemma submit_cases
    (siteKey : option jsstring) (o : SubmitOutcomes) (w : World) :
  let c := form w in
  let w' := submit siteKey o w in
  (requests w' = requests w /\
   (valid (formData c) = false \/ truthy_opt siteKey = true)) \/
  exists token : jsstring,
    valid (formData c) = true /\
    (if truthy_opt siteKey && turnstile (window w)
        && truthy_opt (turnstileId c)
     then executeOutcome o = ExecuteToken token
     else token = []) /\
    requests w' =
      requests w ++
      [mkRequest (js "/api/contact") (js "POST")
         [(js "Content-Type", js "application/json")]
         (payload (formData c)
            (replace_class_all (fun ch => negb (is_digit ch))
               (phone (formData c)))
            token)] /\
    form w' =
      match fetchOutcome o with
      | FetchResponds r =>
          if ok r then
            mkContactForm emptyForm ∅ success
              (js "Thank you. A Los Angeles exchange specialist will follow up within one business day.")
              (turnstileId c) (turnstileReady c)
          else
            mkContactForm (formData c) ∅ error
              match json r with
              | JsonRejects => js "Failed to submit form"
              | JsonNull =>
                  js "An error occurred. Please try again or contact us directly."
              | JsonValue e =>
                  orElse e (js "Failed to submit form. Please try again.")
              end
              (turnstileId c) (turnstileReady c)
      | FetchRejects _ =>
          mkContactForm (formData c) ∅ error
            (js "An error occurred. Please try again or contact us directly.")
            (turnstileId c) (turnstileReady c)
      end.
Proof.
  intros c w'. subst c.
  remember (submit siteKey o w) as w1 eqn:E. subst w'.
  unfold submit, run, handleSubmit in E.
  unfold bind at 1 in E. rewrite validate_eq in E.
  destruct (valid (formData (form w))) eqn:Hv; cbn [negb] in E;
    [|left; subst w1; auto].
  destruct w as [[d e st fb tid rdy] [ld api sc cl]].
  destruct o as [eo fo].
  cbn [form window formData turnstileId turnstileReady turnstile
       executeOutcome fetchOutcome] in E, Hv |- *.
  destruct (truthy_opt siteKey), api, tid as [[|a i]|], rdy;
    unfold_act_in E; cbn in E;
    try (left; subst w1; split; [reflexivity | auto]).
  all: try (destruct eo as [t| |]; cbn in E;
            try (left; subst w1; split; [|auto]; unfold requests; cbn;
                 rewrite ?omap_app; cbn; by rewrite ?app_nil_r)).
  all: right; eexists; split; [reflexivity|]; split; [reflexivity|].
  all: destruct fo as [[hs j]|err]; cbn in E;
    [destruct (ok (mkResponse hs j)); cbn in E;
       [|destruct j as [| |[m|]]; cbn in E]|];
    subst w1;
    (split; [unfold requests; cbn; rewrite ?omap_app; cbn;
             by rewrite ?app_nil_r, <-?app_assoc | reflexivity]).
Qed.

Lemma lookupKey_phone (d : FormData) (p t : jsstring) :
  lookupKey (js "phone") (payload d p t) = Some p.
Proof. reflexivity. Qed.

Lemma lookupKey_turnstileToken (d : FormData) (p t : jsstring) :
  lookupKey (js "turnstileToken") (payload d p t) = Some t.
Proof. reflexivity. Qed.

(** C5.  With no site key configured, submitting a valid draft sends
    exactly one request, a POST to /api/contact, and the [turnstileToken]
    of its body is the empty string. *)
Theorem submit_unverified_sends_one
    (siteKey : option jsstring) (o : SubmitOutcomes) (w : World) :
  valid (formData (form w)) = true ->
  truthy_opt siteKey = false ->
  exists req : Request,
    requests (submit siteKey o w) = requests w ++ [req] /\
    url req = js "/api/contact" /\
    method req = js "POST" /\
    lookupKey (js "turnstileToken") (body req) = Some [].
Proof.
  intros Hv Hk.
  destruct (submit_cases siteKey o w) as [[_ [H|H]]|(token & _ & Ht & Hr & _)];
    [congruence | congruence |].
  rewrite Hk in Ht. simpl in Ht. subst token.
  eexists. split; [exact Hr|]. cbn [url method body].
  by rewrite lookupKey_turnstileToken.
Qed.

Lemma submit_unverified_sends_one_witness :
  valid (formData (form sampleWorld)) = true /\
  truthy_opt None = false /\
  exists req : Request,
    requests (submit None accepted sampleWorld)
    = requests sampleWorld ++ [req] /\
    url req = js "/api/contact" /\
    method req = js "POST" /\
    lookupKey (js "turnstileToken") (body req) = Some [].
Proof.
  split; [reflexivity|]. split; [reflexivity|].
  apply (submit_unverified_sends_one None accepted sampleWorld);
    reflexivity.
Defined.

Lemma submit_not_ready_witness :
  valid (formData (form sampleWorld)) = true /\
  truthy_opt (Some (js "site-key")) = true /\
  (turnstile (window sampleWorld) = false \/
   truthy_opt (turnstileId (form sampleWorld)) = false \/
   turnstileReady (form sampleWorld) = false) /\
  (requests (submit (Some (js "site-key")) accepted sampleWorld)
   = requests sampleWorld /\
   calls (window (submit (Some (js "site-key")) accepted sampleWorld))
   = calls (window sampleWorld) /\
   status (form (submit (Some (js "site-key")) accepted sampleWorld)) = error /\
   feedback (form (submit (Some (js "site-key")) accepted sampleWorld))
   = js "Please complete the security verification.").
Proof.
  split; [reflexivity|]. split; [reflexivity|].
  split; [left; reflexivity|].
  apply (submit_not_ready (Some (js "site-key")) accepted sampleWorld);
    [reflexivity | reflexivity | left; reflexivity].
Defined.

(** C4.  When a submission reaches the backend and the response has an
    OK-class status, all ten draft fields are the empty string afterwards,
    the status is [success] and the confirmation message is shown. *)
Theorem submit_ok_clears_draft
    (siteKey : option jsstring) (o : SubmitOutcomes) (w : World)
    (r : Response) :
  requests (submit siteKey o w) <> requests w ->
  fetchOutcome o = FetchResponds r ->
  ok r = true ->
  let w' := submit siteKey o w in
  (forall k, getField k (formData (form w')) = []) /\
  status (form w') = success /\
  feedback (form w') =
    js "Thank you. A Los Angeles exchange specialist will follow up within one business day.".
Proof.
  intros Hsent Hf Hok w'. subst w'.
  destruct (submit_cases siteKey o w) as [[H _]|(token & _ & _ & _ & Hform)];
    [congruence|].
  rewrite Hf, Hok in Hform. rewrite Hform. simpl.
  split; [by intros []|done].
Qed.

Lemma submit_ok_clears_draft_witness :
  requests (submit (Some (js "site-key")) accepted readyWorld)
  <> requests readyWorld /\
  fetchOutcome accepted = FetchResponds (mkResponse 200 (JsonValue None)) /\
  ok (mkResponse 200 (JsonValue None)) = true /\
  ((forall k,
      getField k
        (formData (form (submit (Some (js "site-key")) accepted readyWorld)))
      = []) /\
   status (form (submit (Some (js "site-key")) accepted readyWorld))
   = success /\
   feedback (form (submit (Some (js "site-key")) accepted readyWorld)) =
     js "Thank you. A Los Angeles exchange specialist will follow up within one business day.").
Proof.
  assert (H : requests (submit (Some (js "site-key")) accepted readyWorld)
              <> requests readyWorld) by (vm_compute; discriminate).
  split; [exact H|]. split; [reflexivity|]. split; [reflexivity|].
  exact (submit_ok_clears_draft (Some (js "site-key")) accepted readyWorld
           (mkResponse 200 (JsonValue None)) H eq_refl eq_refl).
Defined.

(** C3, counterexample.  The backend answers HTTP 500 with the body
    [{"error":""}]: the body has an error field, yet the message shown is
    not that field but the fallback text. *)
Lemma submit_empty_error_field_not_shown :
  let w' := submit (Some (js "site-key")) emptyError readyWorld in
  requests w' <> requests readyWorld /\
  fetchOutcome emptyError = FetchResponds (mkResponse 500 (JsonValue (Some [])))
  /\
  ok (mkResponse 500 (JsonValue (Some []))) = false /\
  feedback (form w') <> [] /\
  feedback (form w') = js "Failed to submit form. Please try again.".
Proof.
  cbv zeta. split; [vm_compute; discriminate|].
  split; [reflexivity|]. split; [reflexivity|].
  split; [vm_compute; discriminate | reflexivity].
Qed.

(** C3, amended.  When a submission reaches the backend and the response
    has a non-OK status, the status becomes [error] and the draft is
    left as it was; the message shown is the body's error field when the
    body is JSON with a non-empty error field, and a generic message when
    the body does not parse or the field is absent or empty. *)
Theorem submit_failure_keeps_draft
    (siteKey : option jsstring) (o : SubmitOutcomes) (w : World)
    (r : Response) :
  requests (submit siteKey o w) <> requests w ->
  fetchOutcome o = FetchResponds r ->
  ok r = false ->
  let w' := submit siteKey o w in
  status (form w') = error /\
  formData (form w') = formData (form w) /\
  (forall e, json r = JsonValue (Some e) -> e <> [] ->
     feedback (form w') = e) /\
  (json r = JsonRejects -> feedback (form w') = js "Failed to submit form") /\
  (json r = JsonValue None \/ json r = JsonValue (Some []) ->
     feedback (form w') = js "Failed to submit form. Please try again.").
Proof.
  intros Hsent Hf Hok w'. subst w'.
  destruct (submit_cases siteKey o w) as [[H _]|(token & _ & _ & _ & Hform)];
    [congruence|].
  rewrite Hf, Hok in Hform. rewrite Hform. simpl.
  split; [done|]. split; [done|].
  split; [|split].
  - intros e -> He. by destruct e.
  - by intros ->.
  - by intros [-> | ->].
Qed.

Lemma submit_failure_keeps_draft_witness :
  let w' := submit (Some (js "site-key")) duplicateLead readyWorld in
  let r := mkResponse 500 (JsonValue (Some (js "Duplicate lead"))) in
  requests w' <> requests readyWorld /\
  fetchOutcome duplicateLead = FetchResponds r /\
  ok r = false /\
  (status (form w') = error /\
   formData (form w') = formData (form readyWorld) /\
   (forall e, json r = JsonValue (Some e) -> e <> [] ->
      feedback (form w') = e) /\
   (json r = JsonRejects -> feedback (form w') = js "Failed to submit form") /\
   (json r = JsonValue None \/ json r = JsonValue (Some []) ->
      feedback (form w') = js "Failed to submit form. Please try again.")).
Proof.
  intros w' r.
  assert (H : requests w' <> requests readyWorld)
    by (vm_compute; discriminate).
  split; [exact H|]. split; [reflexivity|]. split; [reflexivity|].
  exact (submit_failure_keeps_draft (Some (js "site-key")) duplicateLead
           readyWorld r H eq_refl eq_refl).
Defined.

(** The example of the specification: HTTP 500 with the body
    [{"error":"Duplicate lead"}] shows exactly that text and keeps the
    draft. *)
Example duplicate_lead_shown :
  let w' := submit (Some (js "site-key")) duplicateLead readyWorld in
  feedback (form w') = js "Duplicate lead" /\
  status (form w') = error /\
  formData (form w') = sampleDraft.
Proof. cbv zeta. repeat split. Qed.

(** C7.  The request a submission sends carries as [phone] the decimal
    digits of the draft's phone field, in their order, every other code
    unit removed; "(818) 412-8402" becomes "8184128402". *)
Theorem submit_phone_digits
    (siteKey : option jsstring) (o : SubmitOutcomes) (w : World) :
  requests (submit siteKey o w) <> requests w ->
  exists (req : Request) (p : jsstring),
    requests (submit siteKey o w) = requests w ++ [req] /\
    lookupKey (js "phone") (body req) = Some p /\
    p = digitsOf (phone (formData (form w))) /\
    Forall (fun ch => is_digit ch = true) p /\
    sublist p (phone (formData (form w))) /\
    (forall ch, ch ∈ phone (formData (form w)) -> is_digit ch = true ->
       ch ∈ p) /\
    digitsOf (js "(818) 412-8402") = js "8184128402".
Proof.
  intros Hsent.
  destruct (submit_cases siteKey o w) as [[H _]|(token & _ & _ & Hr & _)];
    [congruence|].
  eexists. exists (digitsOf (phone (formData (form w)))).
  split; [exact Hr|]. cbn [body].
  rewrite lookupKey_phone, replace_nondigits.
  split; [reflexivity|]. split; [reflexivity|].
  split; [apply digitsOf_digits|].
  split; [apply digitsOf_sublist|].
  split; [apply digitsOf_complete | reflexivity].
Qed.

Lemma submit_phone_digits_witness :
  requests (submit None accepted sampleWorld) <> requests sampleWorld /\
  exists (req : Request) (p : jsstring),
    requests (submit None accepted sampleWorld)
    = requests sampleWorld ++ [req] /\
    lookupKey (js "phone") (body req) = Some p /\
    p = digitsOf (phone (formData (form sampleWorld))) /\
    Forall (fun ch => is_digit ch = true) p /\
    sublist p (phone (formData (form sampleWorld))) /\
    (forall ch, ch ∈ phone (formData (form sampleWorld)) ->
       is_digit ch = true -> ch ∈ p) /\
    digitsOf (js "(818) 412-8402") = js "8184128402".
Proof.
  assert (H : requests (submit None accepted sampleWorld)
              <> requests sampleWorld) by (vm_compute; discriminate).
  split; [exact H|].
  exact (submit_phone_digits None accepted sampleWorld H).
Defined.

(** The request of the sample draft, whose phone is "(818) 412-8402". *)
Example sample_phone_transmitted :
  exists req,
    requests (submit None accepted sampleWorld) = [req] /\
    lookupKey (js "phone") (body req) = Some (js "8184128402").
Proof. eexists. split; reflexivity. Qed.


(** * Further properties *)

(** ** The email pattern *)

Section RegexSemantics.

Implicit Types (r : Regex.t) (s : jsstring) (c : N).

Lemma nullable_matches r : Regex.nullable r = true <-> regex_matches r [].
Proof.
  split.
  - induction r; simpl; intros H; try discriminate.
    + constructor.
    + apply andb_true_iff in H as [H1 H2].
      change (@nil N) with (@nil N ++ []). constructor; auto.
    + apply orb_true_iff in H as [H|H];
        [apply MatchAltL | apply MatchAltR]; auto.
    + constructor.
  - remember [] as s eqn:Es. intros H.
    induction H as [|p c Hp|r1 r2 s1 s2 H1 IH1 H2 IH2|r1 r2 s H IH
                   |r1 r2 s H IH|r|r s1 s2 H1 IH1 H2 IH2]; simpl;
      try reflexivity; try discriminate.
    + apply app_eq_nil in Es as [-> ->].
      by rewrite IH1, IH2.
    + by rewrite IH.
    + rewrite IH by done. by rewrite orb_true_r.
Qed.

(** A non-empty match of a star starts with a non-empty match of its
    body. *)
Lemma star_cons_split r c s :
  regex_matches (Regex.Star r) (c :: s) ->
  exists s1 s2,
    s = s1 ++ s2 /\ regex_matches r (c :: s1) /\
    regex_matches (Regex.Star r) s2.
Proof.
  remember (Regex.Star r) as r' eqn:Er. remember (c :: s) as t eqn:Et.
  intros H. revert s Et.
  induction H as [|p a Hp|r1 r2 s1 s2 H1 IH1 H2 IH2|r1 r2 u H IH
                 |r1 r2 u H IH|r0|r0 s1 s2 H1 IH1 H2 IH2];
    intros s Et; try discriminate.
  injection Er as ->.
  destruct s1 as [|a s1]; simpl in Et.
  - by apply IH2.
  - injection Et as -> <-. by exists s1, s2.
Qed.

Lemma cat_matches_inv r1 r2 s :
  regex_matches (Regex.Cat r1 r2) s ->
  exists s1 s2, s = s1 ++ s2 /\ regex_matches r1 s1 /\ regex_matches r2 s2.
Proof. inversion 1; subst. by eexists _, _. Qed.

Lemma alt_matches_inv r1 r2 s :
  regex_matches (Regex.Alt r1 r2) s ->
  regex_matches r1 s \/ regex_matches r2 s.
Proof. inversion 1; subst; auto. Qed.

Lemma class_matches_inv (p : N -> bool) s :
  regex_matches (Regex.Class p) s -> exists c, s = [c] /\ p c = true.
Proof. inversion 1; subst. by eexists. Qed.

Lemma deriv_matches r c s :
  regex_matches (Regex.deriv c r) s <-> regex_matches r (c :: s).
Proof.
  revert s. induction r as [| |p|r1 IH1 r2 IH2|r1 IH1 r2 IH2|r IH];
    intros s; simpl.
  - split; inversion 1.
  - split; inversion 1.
  - destruct (p c) eqn:Hp; split; intros H.
    + inversion H; subst. by constructor.
    + apply class_matches_inv in H as (a & [= -> ->] & _). constructor.
    + inversion H.
    + apply class_matches_inv in H as (a & [= <- _] & Ha). congruence.
  - assert (Hc : forall t,
               regex_matches (Regex.Cat (Regex.deriv c r1) r2) t ->
               regex_matches (Regex.Cat r1 r2) (c :: t)).
    { intros t Hc. apply cat_matches_inv in Hc as (s1 & s2 & -> & Ha & Hb).
      change (c :: s1 ++ s2) with ((c :: s1) ++ s2).
      constructor; [by apply IH1 | done]. }
    split.
    + intros H.
      destruct (Regex.nullable r1) eqn:Hn; [|by apply Hc].
      apply alt_matches_inv in H as [H|H]; [by apply Hc|].
      change (c :: s) with ([] ++ c :: s).
      constructor; [by apply nullable_matches | by apply IH2].
    + intros H. apply cat_matches_inv in H as (s1 & s2 & Es & Ha & Hb).
      destruct s1 as [|a s1]; simpl in Es.
      * subst s2. apply nullable_matches in Ha. rewrite Ha.
        apply MatchAltR. by apply IH2.
      * injection Es as <- ->.
        assert (Hd : regex_matches (Regex.Cat (Regex.deriv c r1) r2)
                       (s1 ++ s2))
          by (constructor; [by apply IH1 | done]).
        destruct (Regex.nullable r1); [by apply MatchAltL | done].
  - split; intros H; apply alt_matches_inv in H as [H|H].
    + apply MatchAltL. by apply IH1.
    + apply MatchAltR. by apply IH2.
    + apply MatchAltL. by apply IH1.
    + apply MatchAltR. by apply IH2.
  - split; intros H.
    + apply cat_matches_inv in H as (s1 & s2 & -> & Ha & Hb).
      change (c :: s1 ++ s2) with ((c :: s1) ++ s2).
      constructor; [by apply IH | done].
    + apply star_cons_split in H as (s1 & s2 & -> & Ha & Hb).
      constructor; [by apply IH | done].
Qed.

Lemma test_matches r s : Regex.test r s = true <-> regex_matches r s.
Proof.
  revert r. induction s as [|c s IH]; intros r; simpl.
  - apply nullable_matches.
  - rewrite IH. apply deriv_matches.
Qed.

Lemma star_class_matches (p : N -> bool) s :
  regex_matches (Regex.Star (Regex.Class p)) s <->
  Forall (fun c => p c = true) s.
Proof.
  split.
  - remember (Regex.Star (Regex.Class p)) as r eqn:Er. intros H.
    induction H as [|q a Hq|r1 r2 s1 s2 H1 IH1 H2 IH2|r1 r2 u H IH
                   |r1 r2 u H IH|r0|r0 s1 s2 H1 IH1 H2 IH2];
      try discriminate; [constructor|].
    injection Er as ->. inversion H1; subst. simpl.
    constructor; [done | by apply IH2].
  - induction 1 as [|c s Hc _ IH]; [constructor|].
    change (c :: s) with ([c] ++ s). constructor; [by constructor | done].
Qed.

Lemma plus_class_matches (p : N -> bool) s :
  regex_matches (Regex.Plus (Regex.Class p)) s <->
  s <> [] /\ Forall (fun c => p c = true) s.
Proof.
  unfold Regex.Plus. split.
  - intros H. apply cat_matches_inv in H as (s1 & s2 & -> & Ha & Hb).
    apply class_matches_inv in Ha as (c & -> & Hc).
    split; [discriminate|].
    constructor; [done | by apply star_class_matches].
  - intros [Hne Hall]. destruct Hall as [|c s Hc Hs]; [done|].
    change (c :: s) with ([c] ++ s).
    constructor; [by constructor | by apply star_class_matches].
Qed.

Lemma class_eqb_matches (a : N) s :
  regex_matches (Regex.Class (N.eqb a)) s <-> s = [a].
Proof.
  split.
  - intros H. apply class_matches_inv in H as (c & -> & Hc).
    apply N.eqb_eq in Hc. by subst.
  - intros ->. constructor. apply N.eqb_refl.
Qed.

End RegexSemantics.

Lemma email_regex_decompose (s : jsstring) :
  Regex.test email_regex s = true <->
  exists a b c : jsstring,
    s = a ++ [64] ++ b ++ [46] ++ c /\
    emailPart a /\ emailPart b /\ emailPart c.
Proof.
  rewrite test_matches. unfold email_regex, emailPart. split.
  - intros H.
    apply cat_matches_inv in H as (a & s1 & -> & Ha & H).
    apply cat_matches_inv in H as (at_ & s2 & -> & Hat & H).
    apply cat_matches_inv in H as (b & s3 & -> & Hb & H).
    apply cat_matches_inv in H as (dot & c & -> & Hdot & Hc).
    apply class_eqb_matches in Hat, Hdot. subst at_ dot.
    apply plus_class_matches in Ha, Hb, Hc.
    by exists a, b, c.
  - intros (a & b & c & -> & Ha & Hb & Hc).
    apply plus_class_matches in Ha, Hb, Hc.
    repeat (constructor; try done); by apply class_eqb_matches.
Qed.

(** X1.  The pattern of [validate] accepts exactly the strings
    [local@domain.tld] whose three parts are non-empty and free of
    whitespace and of [@]. *)
Theorem email_regex_shape (s : jsstring) :
  Regex.test email_regex s = true <->
  exists a b c : jsstring,
    s = a ++ [64] ++ b ++ [46] ++ c /\
    emailPart a /\ emailPart b /\ emailPart c.
Proof. exact (email_regex_decompose s). Qed.

(** ** Validation *)

(** X2.  An address the pattern accepts has no whitespace and exactly one
    [@]. *)
Theorem email_regex_one_at (s : jsstring) :
  Regex.test email_regex s = true ->
  Forall (fun c => is_space c = false) s /\
  length (List.filter (N.eqb 64) s) = 1%nat.
Proof.
  intros H. apply email_regex_decompose in H
    as (a & b & c & -> & [_ Ha] & [_ Hb] & [_ Hc]).
  assert (Hsp : forall t, Forall (fun c => not_space_at c = true) t ->
                  Forall (fun c => is_space c = false) t).
  { intros t Ht. eapply Forall_impl; [exact Ht|]. simpl. intros x Hx.
    unfold not_space_at in Hx. apply negb_true_iff, orb_false_iff in Hx.
    tauto. }
  assert (Hat : forall t, Forall (fun c => not_space_at c = true) t ->
                  List.filter (N.eqb 64) t = []).
  { intros t Ht. induction Ht as [|x t Hx _ IH]; [reflexivity|].
    cbn [List.filter]. unfold not_space_at in Hx. apply negb_true_iff, orb_false_iff in Hx.
    destruct Hx as [_ Hx]. rewrite N.eqb_sym in Hx. by rewrite Hx. }
  split.
  - repeat (apply Forall_app; split); auto; by repeat constructor.
  - rewrite !List.filter_app, (Hat a), (Hat b), (Hat c) by done.
    reflexivity.
Qed.

Lemma email_regex_one_at_witness :
  Regex.test email_regex (js "ada@example.com") = true /\
  Forall (fun c => is_space c = false) (js "ada@example.com") /\
  length (List.filter (N.eqb 64) (js "ada@example.com")) = 1%nat.
Proof.
  split; [reflexivity|].
  apply (email_regex_one_at (js "ada@example.com")). reflexivity.
Defined.

Lemma valid_eq (d : FormData) :
  valid d =
  truthy (trim (name d))
  && Regex.test email_regex (trim (email d))
  && truthy (trim (phone d))
  && truthy (trim (projectType d)).
Proof.
  assert (He : Regex.test email_regex [] = false) by reflexivity.
  unfold valid, newErrors.
  destruct (trim (name d)), (trim (email d)) as [|x e] eqn:E,
    (trim (phone d)), (trim (projectType d));
    rewrite ?He; cbn [truthy negb orb andb];
    try destruct (Regex.test email_regex (x :: e));
    reflexivity.
Qed.

Lemma truthy_trim_iff (s : jsstring) : truthy (trim s) = true <-> ~ blank s.
Proof.
  rewrite <- trim_nil_iff. destruct (trim s); simpl; split; congruence.
Qed.

(** X3.  [validate] returns [true] exactly when name, phone and projectType
    are not blank and the trimmed email matches the pattern; and exactly
    then the error mapping it stores is empty. *)
Theorem validate_accepts_iff (d : FormData) (w : World) :
  (fst (validate d w) = Normal true <->
   ~ blank (name d) /\
   Regex.test email_regex (trim (email d)) = true /\
   ~ blank (phone d) /\
   ~ blank (projectType d)) /\
  (fst (validate d w) = Normal true <->
   errors (form (snd (validate d w))) = ∅).
Proof.
  rewrite validate_eq. simpl. split.
  - rewrite valid_eq, <- !truthy_trim_iff.
    split.
    + intros [= H]. repeat (apply andb_true_iff in H as [H ?]). auto.
    + intros (-> & -> & -> & ->). reflexivity.
  - unfold valid, noKeys. split.
    + intros [= H]. apply map_to_list_empty_iff.
      by destruct (map_to_list (newErrors d)).
    + intros ->. reflexivity.
Qed.

(** X4.  The six optional fields play no part in validation: whatever they
    are set to, the error mapping is the same, and it never has an entry
    for them. *)
Theorem validate_ignores_optional (k : Key.t) (v : jsstring) (d : FormData) :
  ~ required k ->
  newErrors (setField k v d) = newErrors d /\
  valid (setField k v d) = valid d /\
  newErrors d !! k = None.
Proof.
  intros Hk. unfold required in Hk.
  assert (E : newErrors (setField k v d) = newErrors d)
    by (destruct k; try reflexivity; tauto).
  split; [exact E|]. split; [unfold valid; by rewrite E|].
  unfold newErrors.
  destruct k; try tauto;
    repeat match goal with
           | |- context [if ?b then _ else _] => destruct b
           end; by simplify_map_eq.
Qed.

Lemma validate_ignores_optional_witness :
  ~ required Key.city /\
  newErrors (setField Key.city (js "   ") sampleDraft) = newErrors sampleDraft /\
  valid (setField Key.city (js "   ") sampleDraft) = valid sampleDraft /\
  newErrors sampleDraft !! Key.city = None.
Proof.
  assert (H : ~ required Key.city)
    by (intros [H|[H|[H|H]]]; discriminate).
  split; [exact H|].
  exact (validate_ignores_optional Key.city (js "   ") sampleDraft H).
Defined.

(** X5.  Of name, phone and projectType only blankness is checked: in a
    valid draft any of them can be replaced by any value that is not
    blank, digits or not, listed or not, and the draft stays valid. *)
Theorem validate_nonblank_suffices (k : Key.t) (v : jsstring) (d : FormData) :
  k = Key.name \/ k = Key.phone \/ k = Key.projectType ->
  valid d = true ->
  ~ blank v ->
  valid (setField k v d) = true.
Proof.
  intros Hk Hv Hb. apply truthy_trim_iff in Hb.
  rewrite valid_eq in Hv |- *.
  repeat (apply andb_true_iff in Hv as [Hv ?]).
  destruct Hk as [-> | [-> | ->]]; simpl; rewrite Hb;
    repeat (apply andb_true_iff; split); done.
Qed.

Lemma validate_nonblank_suffices_witness :
  (Key.phone = Key.name \/ Key.phone = Key.phone \/
   Key.phone = Key.projectType) /\
  valid sampleDraft = true /\
  ~ blank (js "call me") /\
  valid (setField Key.phone (js "call me") sampleDraft) = true.
Proof.
  assert (Hb : ~ blank (js "call me"))
    by (intros H; inversion H; discriminate).
  split; [right; left; reflexivity|]. split; [reflexivity|].
  split; [exact Hb|].
  apply (validate_nonblank_suffices Key.phone (js "call me") sampleDraft);
    [right; left; reflexivity | reflexivity | exact Hb].
Defined.

(** ** Editing *)

Lemma setField_commute (k1 k2 : Key.t) (v1 v2 : jsstring) (d : FormData) :
  k1 <> k2 ->
  setField k1 v1 (setField k2 v2 d) = setField k2 v2 (setField k1 v1 d).
Proof. by destruct k1, k2. Qed.

Lemma setField_overwrite (k : Key.t) (v1 v2 : jsstring) (d : FormData) :
  setField k v2 (setField k v1 d) = setField k v2 d.
Proof. by destruct k. Qed.

(** X6.  Edits of two different fields give the same state in either order. *)
Theorem handleChange_commute
    (k1 k2 : Key.t) (v1 v2 : jsstring) (w : World) :
  k1 <> k2 ->
  run (handleChange k1 v1) (run (handleChange k2 v2) w) =
  run (handleChange k2 v2) (run (handleChange k1 v1) w).
Proof.
  intros Hk. rewrite !handleChange_eq. simpl.
  rewrite (setField_commute k1 k2) by done.
  by rewrite (insert_insert_ne (errors (form w)) k1 k2).
Qed.

Lemma handleChange_commute_witness :
  Key.name <> Key.email /\
  run (handleChange Key.name (js "Ada"))
    (run (handleChange Key.email (js "ada@example.com")) sampleWorld) =
  run (handleChange Key.email (js "ada@example.com"))
    (run (handleChange Key.name (js "Ada")) sampleWorld).
Proof.
  assert (H : Key.name <> Key.email) by discriminate.
  split; [exact H|].
  exact (handleChange_commute Key.name Key.email (js "Ada")
           (js "ada@example.com") sampleWorld H).
Defined.

(** X7.  Of two edits of the same field only the later one shows. *)
Theorem handleChange_overwrite (k : Key.t) (v1 v2 : jsstring) (w : World) :
  run (handleChange k v2) (run (handleChange k v1) w) =
  run (handleChange k v2) w.
Proof.
  rewrite !handleChange_eq. simpl.
  by rewrite setField_overwrite, insert_insert_eq.
Qed.

(** ** Submitting, case by case *)

Lemma submit_flat
    (siteKey : option jsstring) (o : SubmitOutcomes) (w : World) :
  submit siteKey o w = submitFlat siteKey o w.
Proof.
  unfold submit, run, handleSubmit, submitFlat.
  unfold bind at 1. rewrite validate_eq.
  destruct (valid (formData (form w))) eqn:Hv; cbn [negb]; [|reflexivity].
  destruct w as [[d e st fb tid rdy] [ld api sc cl]].
  destruct o as [eo fo].
  cbn [form window formData turnstileId turnstileReady turnstile
       executeOutcome fetchOutcome].
  destruct (truthy_opt siteKey), api, tid as [[|a i]|], rdy;
    unfold_act; cbn; try reflexivity.
  all: try (destruct eo as [t| |]; cbn; try reflexivity).
  all: destruct fo as [[hs j]|err]; cbn; try reflexivity.
  all: destruct (ok (mkResponse hs j)); cbn; try reflexivity.
  all: destruct j as [| |[m|]]; reflexivity.
Qed.

Lemma resetIn_calls (id : option jsstring) (win : Window) :
  resetIn id win = win \/
  exists i, id = Some i /\ truthy i = true /\ turnstile win = true /\
            resetIn id win = perform (Reset i) win.
Proof.
  unfold resetIn. destruct id as [i|]; [|by left].
  destruct (turnstile win) eqn:Ha, (truthy i) eqn:Hi; simpl; auto.
  right. by exists i.
Qed.

Lemma requests_window (f f' : ContactForm) (win : Window) :
  requests (mkWorld f win) = requests (mkWorld f' win).
Proof. reflexivity. Qed.

Lemma requests_performed (f : ContactForm) (e : Effect) (win : Window) :
  requests (mkWorld f (perform e win)) =
  requests (mkWorld f win) ++ match e with Fetch r => [r] | _ => [] end.
Proof. unfold requests. simpl. by rewrite omap_app; destruct e. Qed.

Lemma requests_resetIn (f : ContactForm) (id : option jsstring)
    (win : Window) :
  requests (mkWorld f (resetIn id win)) = requests (mkWorld f win).
Proof.
  destruct (resetIn_calls id win) as [->|(i & _ & _ & _ & ->)];
    [reflexivity|].
  by rewrite requests_performed, app_nil_r.
Qed.

Lemma app_singleton_ne {A} (l : list A) (x : A) : l ++ [x] <> l.
Proof.
  intros H. apply (f_equal length) in H. rewrite length_app in H.
  simpl in H. lia.
Qed.

Lemma orElse_nonempty (e : option jsstring) (fallback : jsstring) :
  fallback <> [] -> orElse e fallback <> [].
Proof.
  intros H. unfold orElse. destruct e as [[|c s]|]; simpl; done.
Qed.

Lemma submit_rejected
    (siteKey : option jsstring) (o : SubmitOutcomes) (w : World) :
  valid (formData (form w)) = false ->
  let w' := submit siteKey o w in
  window w' = window w /\
  formData (form w') = formData (form w) /\
  errors (form w') = newErrors (formData (form w)) /\
  status (form w') = status (form w) /\
  feedback (form w') = js "Please complete all required fields." /\
  turnstileId (form w') = turnstileId (form w) /\
  turnstileReady (form w') = turnstileReady (form w).
Proof.
  intros Hv w'. subst w'. rewrite submit_flat. unfold submitFlat.
  rewrite Hv. simpl. done.
Qed.

(** X8.  Submitting a draft that fails validation has no effect outside the
    component: nothing is called or sent.  The draft, the status and the
    widget state stay as they are; the errors are those of the draft and
    the message asks for the required fields. *)
Theorem submit_invalid
    (siteKey : option jsstring) (o : SubmitOutcomes) (w : World) :
  valid (formData (form w)) = false ->
  let w' := submit siteKey o w in
  window w' = window w /\
  formData (form w') = formData (form w) /\
  errors (form w') = newErrors (formData (form w)) /\
  status (form w') = status (form w) /\
  feedback (form w') = js "Please complete all required fields." /\
  turnstileId (form w') = turnstileId (form w) /\
  turnstileReady (form w') = turnstileReady (form w).
Proof. exact (submit_rejected siteKey o w). Qed.

Lemma submit_invalid_witness :
  let w := mkWorld initialForm freshWindow in
  let w' := submit (Some (js "site-key")) accepted w in
  valid (formData (form w)) = false /\
  window w' = window w /\
  formData (form w') = formData (form w) /\
  errors (form w') = newErrors (formData (form w)) /\
  status (form w') = status (form w) /\
  feedback (form w') = js "Please complete all required fields." /\
  turnstileId (form w') = turnstileId (form w) /\
  turnstileReady (form w') = turnstileReady (form w).
Proof.
  intros w w'. split; [reflexivity|].
  apply (submit_invalid (Some (js "site-key")) accepted w). reflexivity.
Defined.

(** X9.  When the widget answers [execute] with its error or timeout
    callback, nothing is sent: the widget is reset, executed, and reset
    again, the status is [error], the message reports the failed
    verification and the draft is kept. *)
Theorem submit_verification_failure
    (siteKey : option jsstring) (o : SubmitOutcomes) (w : World)
    (i : jsstring) :
  valid (formData (form w)) = true ->
  truthy_opt siteKey = true ->
  turnstileReady (form w) = true ->
  turnstile (window w) = true ->
  turnstileId (form w) = Some i ->
  truthy i = true ->
  executeOutcome o = ExecuteError \/ executeOutcome o = ExecuteTimeout ->
  let w' := submit siteKey o w in
  calls (window w') =
    calls (window w) ++
    [Reset i; Execute i (js "form_submit");
     Console Error (js "Turnstile execution error:"); Reset i] /\
  requests w' = requests w /\
  status (form w') = error /\
  feedback (form w') = js "Security verification failed. Please try again." /\
  formData (form w') = formData (form w).
Proof.
  intros Hv Hk Hr Ha Hid Hi Ho w'. subst w'.
  rewrite submit_flat. unfold submitFlat.
  rewrite Hv, Hk, Hr, Ha, Hid. simpl. rewrite Hi. simpl.
  destruct Ho as [-> | ->]; unfold requests; simpl;
    rewrite <- !app_assoc; simpl; rewrite !omap_app; simpl;
    by rewrite app_nil_r.
Qed.

Lemma submit_verification_failure_witness :
  let o := mkSubmitOutcomes ExecuteTimeout (FetchRejects []) in
  let w' := submit (Some (js "site-key")) o readyWorld in
  valid (formData (form readyWorld)) = true /\
  truthy_opt (Some (js "site-key")) = true /\
  turnstileReady (form readyWorld) = true /\
  turnstile (window readyWorld) = true /\
  turnstileId (form readyWorld) = Some (js "widget-1") /\
  truthy (js "widget-1") = true /\
  (executeOutcome o = ExecuteError \/ executeOutcome o = ExecuteTimeout) /\
  calls (window w') =
    calls (window readyWorld) ++
    [Reset (js "widget-1"); Execute (js "widget-1") (js "form_submit");
     Console Error (js "Turnstile execution error:");
     Reset (js "widget-1")] /\
  requests w' = requests readyWorld /\
  status (form w') = error /\
  feedback (form w') = js "Security verification failed. Please try again." /\
  formData (form w') = formData (form readyWorld).
Proof.
  intros o w'.
  do 6 (split; [reflexivity|]). split; [right; reflexivity|].
  apply (submit_verification_failure (Some (js "site-key")) o readyWorld
           (js "widget-1")); try reflexivity.
  right; reflexivity.
Defined.

Lemma submit_sent_iff
    (siteKey : option jsstring) (o : SubmitOutcomes) (w : World) :
  requests (submit siteKey o w) <> requests w <->
  valid (formData (form w)) = true /\
  (truthy_opt siteKey = false \/
   (turnstileReady (form w) = true /\
    turnstile (window w) = true /\
    truthy_opt (turnstileId (form w)) = true /\
    exists t, executeOutcome o = ExecuteToken t)).
Proof.
  assert (Hsent : forall f id req win,
            requests (mkWorld f (resetIn id (perform (Fetch req) win)))
            = requests (mkWorld f win) ++ [req]).
  { intros. by rewrite requests_resetIn, requests_performed. }
  assert (Hcaught : forall f id req e win,
            requests (mkWorld f (resetIn id (perform e
                        (perform (Fetch req) win))))
            = requests (mkWorld f win)
              ++ [req] ++ match e with Fetch r => [r] | _ => [] end).
  { intros. rewrite requests_resetIn, !requests_performed.
    by rewrite <- app_assoc. }
  rewrite submit_flat. unfold submitFlat.
  destruct w as [c win]. cbn [form window].
  destruct (valid (formData c)); cbn [negb];
    [|split; [intros H; by destruct H | intros [[=] _]]].
  destruct (truthy_opt siteKey) eqn:Hk; cbn [andb].
  - destruct (turnstileReady c) eqn:Hr, (turnstile win) eqn:Ha,
      (truthy_opt (turnstileId c)) eqn:Hi; cbn [negb andb orb];
      try (split; [intros H; by destruct H
                  |intros [_ [[=]|(? & ? & ? & ?)]]; discriminate]).
    destruct (executeOutcome o) as [t| |] eqn:He.
    + split; [intros _; split; [done|]; right; eauto 6|intros _].
      destruct (fetchOutcome o) as [r|err];
        [destruct (ok r); [|destruct (json r)]|];
        rewrite ?Hsent, ?Hcaught; simpl;
        rewrite !requests_performed, ?app_nil_r; simpl;
        rewrite ?app_nil_r; apply app_singleton_ne.
    + split; [intros H; exfalso; apply H|
              intros [_ [[=]|(_ & _ & _ & t & [=])]]].
      by rewrite !requests_performed, !app_nil_r.
    + split; [intros H; exfalso; apply H|
              intros [_ [[=]|(_ & _ & _ & t & [=])]]].
      by rewrite !requests_performed, !app_nil_r.
  - split; [intros _; auto|intros _].
    destruct (fetchOutcome o) as [r|err];
      [destruct (ok r); [|destruct (json r)]|];
      rewrite ?Hsent, ?Hcaught; simpl; rewrite ?app_nil_r;
      apply app_singleton_ne.
Qed.

(** X10.  A submission sends one request or none; it sends one exactly when
    the draft is valid and either no site key is configured, or the
    session is ready (flag, API and identifier) and the widget hands over
    a token. *)
Theorem submit_sends_iff
    (siteKey : option jsstring) (o : SubmitOutcomes) (w : World) :
  (requests (submit siteKey o w) <> requests w <->
   valid (formData (form w)) = true /\
   (truthy_opt siteKey = false \/
    (turnstileReady (form w) = true /\
     turnstile (window w) = true /\
     truthy_opt (turnstileId (form w)) = true /\
     exists t, executeOutcome o = ExecuteToken t))) /\
  (requests (submit siteKey o w) = requests w \/
   exists req, requests (submit siteKey o w) = requests w ++ [req]).
Proof.
  split; [apply submit_sent_iff|].
  destruct (submit_cases siteKey o w) as [[H _]|(token & _ & _ & Hr & _)];
    [by left | right; by eexists].
Qed.

(** X11.  When the request itself fails (fetch rejects), or the error body of
    a non-OK response is JSON [null], the handler's outer catch runs: the
    status is [error], the message is the generic retry text, the draft
    is kept and the failure is logged to the console. *)
Theorem submit_transport_failure
    (siteKey : option jsstring) (o : SubmitOutcomes) (w : World) :
  requests (submit siteKey o w) <> requests w ->
  (exists e, fetchOutcome o = FetchRejects e) \/
  (exists r, fetchOutcome o = FetchResponds r /\ ok r = false /\
             json r = JsonNull) ->
  let w' := submit siteKey o w in
  status (form w') = error /\
  feedback (form w') =
    js "An error occurred. Please try again or contact us directly." /\
  formData (form w') = formData (form w) /\
  errors (form w') = ∅ /\
  In (Console Error (js "Error submitting form:")) (calls (window w')).
Proof.
  intros Hsent Hf w'. subst w'.
  apply submit_sent_iff in Hsent as [Hv Hs].
  rewrite submit_flat. unfold submitFlat. rewrite Hv. cbn [negb].
  assert (Hg : truthy_opt siteKey
               && (negb (turnstileReady (form w))
                   || negb (turnstile (window w))
                   || negb (truthy_opt (turnstileId (form w)))) = false).
  { destruct Hs as [->|(-> & -> & -> & _)]; [done|].
    by rewrite andb_false_r. }
  rewrite Hg.
  assert (Ht : exists t,
            (if truthy_opt siteKey && turnstile (window w)
                && truthy_opt (turnstileId (form w))
             then executeOutcome o else ExecuteToken []) = ExecuteToken t).
  { destruct Hs as [->|(_ & -> & -> & t & ->)]; simpl; eauto.
    rewrite andb_true_r. destruct (truthy_opt siteKey); eauto. }
  destruct Ht as [t ->].
  assert (Hin : forall id win,
            In (Console Error (js "Error submitting form:")) (calls win) ->
            In (Console Error (js "Error submitting form:"))
              (calls (resetIn id win))).
  { intros id win H.
    destruct (resetIn_calls id win) as [->|(i & _ & _ & _ & ->)];
      [done|]. simpl. apply in_or_app. by left. }
  destruct Hf as [[e ->]|(r & -> & -> & ->)]; simpl;
    (repeat split; apply Hin; simpl; apply in_or_app; right; by left).
Qed.

Lemma submit_transport_failure_witness :
  let o := mkSubmitOutcomes ExecuteError (FetchRejects (js "offline")) in
  let w' := submit None o sampleWorld in
  requests w' <> requests sampleWorld /\
  ((exists e, fetchOutcome o = FetchRejects e) \/
   (exists r, fetchOutcome o = FetchResponds r /\ ok r = false /\
              json r = JsonNull)) /\
  status (form w') = error /\
  feedback (form w') =
    js "An error occurred. Please try again or contact us directly." /\
  formData (form w') = formData (form sampleWorld) /\
  errors (form w') = ∅ /\
  In (Console Error (js "Error submitting form:")) (calls (window w')).
Proof.
  intros o w'.
  assert (H : requests w' <> requests sampleWorld)
    by (vm_compute; discriminate).
  assert (Hf : (exists e, fetchOutcome o = FetchRejects e) \/
               (exists r, fetchOutcome o = FetchResponds r /\ ok r = false /\
                          json r = JsonNull))
    by (left; by eexists).
  split; [exact H|]. split; [exact Hf|].
  exact (submit_transport_failure None o sampleWorld H Hf).
Defined.

(** X12.  The request that is sent goes to [/api/contact] as a JSON POST; its
    body has the eleven keys of the endpoint, each once, and carries
    every field of the draft other than the phone exactly as typed,
    untrimmed, the message under the key [details]. *)
Theorem submit_payload_verbatim
    (siteKey : option jsstring) (o : SubmitOutcomes) (w : World) :
  requests (submit siteKey o w) <> requests w ->
  exists req : Request,
    requests (submit siteKey o w) = requests w ++ [req] /\
    url req = js "/api/contact" /\
    method req = js "POST" /\
    headers req = [(js "Content-Type", js "application/json")] /\
    map fst (body req) =
      map wireKey Key.all ++ [js "turnstileToken"] /\
    NoDup (map fst (body req)) /\
    forall k, k <> Key.phone ->
      lookupKey (wireKey k) (body req) = Some (getField k (formData (form w))).
Proof.
  intros Hsent.
  destruct (submit_cases siteKey o w) as [[H _]|(token & _ & _ & Hr & _)];
    [congruence|].
  eexists. split; [exact Hr|]. cbn [url method headers body].
  do 4 (split; [reflexivity|]). split.
  - apply (bool_decide_unpack _). vm_compute. exact I.
  - intros k Hk. by destruct k.
Qed.

Lemma submit_payload_verbatim_witness :
  requests (submit None accepted sampleWorld) <> requests sampleWorld /\
  exists req : Request,
    requests (submit None accepted sampleWorld)
    = requests sampleWorld ++ [req] /\
    url req = js "/api/contact" /\
    method req = js "POST" /\
    headers req = [(js "Content-Type", js "application/json")] /\
    map fst (body req) =
      map wireKey Key.all ++ [js "turnstileToken"] /\
    NoDup (map fst (body req)) /\
    forall k, k <> Key.phone ->
      lookupKey (wireKey k) (body req)
      = Some (getField k (formData (form sampleWorld))).
Proof.
  assert (H : requests (submit None accepted sampleWorld)
              <> requests sampleWorld) by (vm_compute; discriminate).
  split; [exact H|].
  exact (submit_payload_verbatim None accepted sampleWorld H).
Defined.

(** X13.  With verification in force and a token handed over, the widget is
    reset and executed (action [form_submit]) before the request goes
    out, the request carries that very token, and whatever the backend
    answers the widget is reset once more at the end; between request
    and final reset there is at most a console message. *)
Theorem submit_verified_call_order
    (siteKey : option jsstring) (o : SubmitOutcomes) (w : World)
    (i t : jsstring) :
  valid (formData (form w)) = true ->
  truthy_opt siteKey = true ->
  turnstileReady (form w) = true ->
  turnstile (window w) = true ->
  turnstileId (form w) = Some i ->
  truthy i = true ->
  executeOutcome o = ExecuteToken t ->
  exists (req : Request) (rest : list Effect),
    calls (window (submit siteKey o w)) =
      calls (window w)
      ++ [Reset i; Execute i (js "form_submit"); Fetch req] ++ rest /\
    lookupKey (js "turnstileToken") (body req) = Some t /\
    (rest = [Reset i] \/
     rest = [Console Error (js "Error submitting form:"); Reset i]).
Proof.
  intros Hv Hk Hr Ha Hid Hi He.
  rewrite submit_flat. unfold submitFlat.
  destruct w as [[d e st fb tid rdy] [ld api sc cl]].
  destruct o as [eo fo]. simpl in Hv, Hr, Ha, Hid, He. subst.
  destruct i as [|a i]; [discriminate|].
  cbn [form window formData turnstileId turnstileReady turnstile
       executeOutcome fetchOutcome].
  rewrite Hv, Hk. simpl. eexists.
  destruct fo as [r|err]; [destruct (ok r); [|destruct (json r)]|];
    simpl; rewrite <- !app_assoc; simpl;
    eexists; (split; [reflexivity|]); (split; [reflexivity|]); auto.
Qed.

Lemma submit_verified_call_order_witness :
  valid (formData (form readyWorld)) = true /\
  truthy_opt (Some (js "site-key")) = true /\
  turnstileReady (form readyWorld) = true /\
  turnstile (window readyWorld) = true /\
  turnstileId (form readyWorld) = Some (js "widget-1") /\
  truthy (js "widget-1") = true /\
  executeOutcome duplicateLead = ExecuteToken (js "token-1") /\
  exists (req : Request) (rest : list Effect),
    calls (window (submit (Some (js "site-key")) duplicateLead readyWorld)) =
      calls (window readyWorld)
      ++ [Reset (js "widget-1");
          Execute (js "widget-1") (js "form_submit"); Fetch req] ++ rest /\
    lookupKey (js "turnstileToken") (body req) = Some (js "token-1") /\
    (rest = [Reset (js "widget-1")] \/
     rest = [Console Error (js "Error submitting form:");
             Reset (js "widget-1")]).
Proof.
  do 7 (split; [reflexivity|]).
  apply (submit_verified_call_order (Some (js "site-key")) duplicateLead
           readyWorld (js "widget-1") (js "token-1")); reflexivity.
Defined.

Lemma submit_preserves
    (siteKey : option jsstring) (o : SubmitOutcomes) (w : World) :
  let w' := submit siteKey o w in
  turnstileId (form w') = turnstileId (form w) /\
  turnstileReady (form w') = turnstileReady (form w) /\
  _turnstileLoaded (window w') = _turnstileLoaded (window w) /\
  turnstile (window w') = turnstile (window w) /\
  scripts (window w') = scripts (window w) /\
  exists new, calls (window w') = calls (window w) ++ new.
Proof.
  intros w'. subst w'. rewrite submit_flat. unfold submitFlat.
  assert (Hreset : forall id win (P : Window -> Prop),
            (forall win', _turnstileLoaded win' = _turnstileLoaded win ->
                          turnstile win' = turnstile win ->
                          scripts win' = scripts win ->
                          (exists new, calls win' = calls win ++ new) ->
                          P win') ->
            P (resetIn id win)).
  { intros id win P HP.
    destruct (resetIn_calls id win) as [->|(i & _ & _ & _ & ->)];
      apply HP; simpl; try done; [exists []; by rewrite app_nil_r|eauto]. }
  destruct (valid (formData (form w))); cbn [negb];
    [|simpl; repeat split; exists []; by rewrite app_nil_r].
  destruct (truthy_opt siteKey
            && (negb (turnstileReady (form w))
                || negb (turnstile (window w))
                || negb (truthy_opt (turnstileId (form w)))));
    [simpl; repeat split; exists []; by rewrite app_nil_r|].
  destruct (truthy_opt siteKey && turnstile (window w)
            && truthy_opt (turnstileId (form w)));
    [destruct (executeOutcome o)|];
    try (destruct (fetchOutcome o) as [r|err];
         [destruct (ok r); [|destruct (json r)]|]);
    cbn [form window settled_form turnstileId turnstileReady];
    try (apply Hreset; intros win' H1 H2 H3 [new H4];
         rewrite H1, H2, H3, H4);
    simpl; repeat split; rewrite <- ?app_assoc; eauto.
Qed.

(** X14.  A submission never touches the widget identifier, the readiness
    flag, the loaded flag, [window.turnstile] or the script elements,
    and it only adds to the log of calls. *)
Theorem submit_frame
    (siteKey : option jsstring) (o : SubmitOutcomes) (w : World) :
  let w' := submit siteKey o w in
  turnstileId (form w') = turnstileId (form w) /\
  turnstileReady (form w') = turnstileReady (form w) /\
  _turnstileLoaded (window w') = _turnstileLoaded (window w) /\
  turnstile (window w') = turnstile (window w) /\
  scripts (window w') = scripts (window w) /\
  exists new, calls (window w') = calls (window w) ++ new.
Proof. exact (submit_preserves siteKey o w). Qed.

Ltac submit_outcomes o w siteKey :=
  destruct (truthy_opt siteKey
            && (negb (turnstileReady (form w))
                || negb (turnstile (window w))
                || negb (truthy_opt (turnstileId (form w)))));
    [|destruct (truthy_opt siteKey && turnstile (window w)
                && truthy_opt (turnstileId (form w)));
      [destruct (executeOutcome o)|];
      try (destruct (fetchOutcome o) as [r|err];
           [destruct (ok r) eqn:Hok; [|destruct (json r)]|])].

Lemma submit_settles
    (siteKey : option jsstring) (o : SubmitOutcomes) (w : World) :
  let w' := submit siteKey o w in
  feedback (form w') <> [] /\
  ((valid (formData (form w)) = false /\
    status (form w') = status (form w)) \/
   (valid (formData (form w)) = true /\
    (status (form w') = success \/ status (form w') = error) /\
    fieldsetDisabled (form w') = false)).
Proof.
  intros w'. subst w'. rewrite submit_flat. unfold submitFlat.
  destruct (valid (formData (form w))); cbn [negb];
    [|split; [discriminate | by left]].
  submit_outcomes o w siteKey; simpl;
    (split; [try discriminate; by apply orElse_nonempty | right; auto]).
Qed.


(** X16.  The status [success] is reached only through a request that the
    backend answered with an OK status, and then the draft is empty. *)
Theorem submit_success_only_if_ok
    (siteKey : option jsstring) (o : SubmitOutcomes) (w : World) :
  valid (formData (form w)) = true ->
  status (form (submit siteKey o w)) = success ->
  requests (submit siteKey o w) <> requests w /\
  (exists r, fetchOutcome o = FetchResponds r /\ ok r = true) /\
  formData (form (submit siteKey o w)) = emptyForm.
Proof.
  intros Hv Hs.
  assert (Hsent : requests (submit siteKey o w) <> requests w).
  { apply submit_sent_iff. split; [done|].
    revert Hs. rewrite submit_flat. unfold submitFlat. rewrite Hv.
    cbn [negb].
    destruct (truthy_opt siteKey); [|auto]. cbn [andb].
    destruct (turnstileReady (form w)), (turnstile (window w)),
      (truthy_opt (turnstileId (form w))); cbn [negb orb andb];
      try (simpl; discriminate).
    destruct (executeOutcome o); try (simpl; discriminate).
    right; eauto 6. }
  split; [exact Hsent|].
  destruct (submit_cases siteKey o w) as [[H _]|(token & _ & _ & _ & Hform)];
    [congruence|].
  rewrite Hform in Hs |- *.
  destruct (fetchOutcome o) as [r|err]; [|discriminate].
  destruct (ok r) eqn:Hok; [|discriminate].
  split; [by exists r | reflexivity].
Qed.

Lemma submit_success_only_if_ok_witness :
  valid (formData (form readyWorld)) = true /\
  status (form (submit (Some (js "site-key")) accepted readyWorld)) = success /\
  requests (submit (Some (js "site-key")) accepted readyWorld)
  <> requests readyWorld /\
  (exists r, fetchOutcome accepted = FetchResponds r /\ ok r = true) /\
  formData (form (submit (Some (js "site-key")) accepted readyWorld))
  = emptyForm.
Proof.
  split; [reflexivity|]. split; [reflexivity|].
  apply (submit_success_only_if_ok (Some (js "site-key")) accepted readyWorld);
    reflexivity.
Defined.

(** X17.  After a successful submission a second click on submit sends
    nothing, whatever the environment would answer: the draft was
    cleared and fails validation.  The status stays [success] while the
    message now asks for the required fields. *)
Theorem submit_again_after_success
    (siteKey : option jsstring) (o o2 : SubmitOutcomes) (w : World)
    (r : Response) :
  requests (submit siteKey o w) <> requests w ->
  fetchOutcome o = FetchResponds r ->
  ok r = true ->
  let w1 := submit siteKey o w in
  let w2 := submit siteKey o2 w1 in
  window w2 = window w1 /\
  requests w2 = requests w1 /\
  status (form w2) = success /\
  feedback (form w2) = js "Please complete all required fields." /\
  forall k, required k -> exists msg, errors (form w2) !! k = Some (Some msg).
Proof.
  intros Hsent Hf Hok w1 w2.
  assert (Hform : form w1 =
            mkContactForm emptyForm ∅ success
              (js "Thank you. A Los Angeles exchange specialist will follow up within one business day.")
              (turnstileId (form w)) (turnstileReady (form w))).
  { subst w1.
    destruct (submit_cases siteKey o w) as [[H _]|(token & _ & _ & _ & Hform)];
      [congruence|].
    by rewrite Hf, Hok in Hform. }
  assert (Hv : valid (formData (form w1)) = false) by (by rewrite Hform).
  destruct (submit_rejected siteKey o2 w1 Hv)
    as (Hwin & Hd & He & Hst & Hfb & _).
  fold w2 in Hwin, Hd, He, Hst, Hfb.
  split; [exact Hwin|].
  split; [unfold requests; by rewrite Hwin|].
  split; [by rewrite Hst, Hform|].
  split; [exact Hfb|].
  intros k Hk. rewrite He, Hform. simpl.
  apply newErrors_required; [exact Hk|].
  destruct k; constructor.
Qed.

Lemma submit_again_after_success_witness :
  let w1 := submit (Some (js "site-key")) accepted readyWorld in
  let w2 := submit (Some (js "site-key")) accepted w1 in
  requests w1 <> requests readyWorld /\
  fetchOutcome accepted = FetchResponds (mkResponse 200 (JsonValue None)) /\
  ok (mkResponse 200 (JsonValue None)) = true /\
  window w2 = window w1 /\
  requests w2 = requests w1 /\
  status (form w2) = success /\
  feedback (form w2) = js "Please complete all required fields." /\
  forall k, required k -> exists msg, errors (form w2) !! k = Some (Some msg).
Proof.
  intros w1 w2.
  assert (H : requests w1 <> requests readyWorld)
    by (vm_compute; discriminate).
  split; [exact H|]. split; [reflexivity|]. split; [reflexivity|].
  exact (submit_again_after_success (Some (js "site-key")) accepted accepted
           readyWorld (mkResponse 200 (JsonValue None)) H eq_refl eq_refl).
Defined.

Lemma lookupKey_payload_token (d : FormData) (p t1 t2 k : jsstring) :
  k <> js "turnstileToken" ->
  lookupKey k (payload d p t1) = lookupKey k (payload d p t2).
Proof.
  intros Hk. unfold payload. cbn [lookupKey].
  repeat (case_bool_decide; [reflexivity|]).
  by rewrite !bool_decide_eq_false_2.
Qed.

(** X18.  After a non-OK response the draft is still there: submitting again,
    if the widget again hands over a token, sends a second request with
    the same fields; only the token may differ. *)
Theorem submit_retry_after_failure
    (siteKey : option jsstring) (o o2 : SubmitOutcomes) (w : World)
    (r : Response) :
  requests (submit siteKey o w) <> requests w ->
  fetchOutcome o = FetchResponds r ->
  ok r = false ->
  (truthy_opt siteKey = true -> exists t, executeOutcome o2 = ExecuteToken t) ->
  exists req1 req2 : Request,
    requests (submit siteKey o2 (submit siteKey o w))
    = requests w ++ [req1; req2] /\
    forall k, k <> js "turnstileToken" ->
      lookupKey k (body req2) = lookupKey k (body req1).
Proof.
  intros Hsent Hf Hok Ho2.
  pose proof (submit_preserves siteKey o w) as (Hid & Hrdy & _ & Hapi & _).
  destruct (submit_cases siteKey o w) as [[H _]|(t1 & _ & _ & Hr1 & Hform)];
    [congruence|].
  rewrite Hf, Hok in Hform.
  assert (Hd : formData (form (submit siteKey o w)) = formData (form w))
    by (rewrite Hform; by destruct (json r)).
  apply submit_sent_iff in Hsent as [Hv Hs].
  assert (Hsent2 : requests (submit siteKey o2 (submit siteKey o w))
                   <> requests (submit siteKey o w)).
  { apply submit_sent_iff. rewrite Hd, Hid, Hrdy, Hapi. split; [done|].
    destruct Hs as [Hs|(? & ? & ? & _)]; [by left|].
    destruct (truthy_opt siteKey) eqn:Hk; [|by left].
    right. auto. }
  destruct (submit_cases siteKey o2 (submit siteKey o w))
    as [[H _]|(t2 & _ & _ & Hr2 & _)]; [congruence|].
  rewrite Hr1, Hd in Hr2. rewrite <- app_assoc in Hr2.
  eexists _, _. split; [exact Hr2|].
  intros k Hk. cbn [body]. by apply lookupKey_payload_token.
Qed.

Lemma submit_retry_after_failure_witness :
  let r := mkResponse 500 (JsonValue (Some (js "Duplicate lead"))) in
  requests (submit (Some (js "site-key")) duplicateLead readyWorld)
  <> requests readyWorld /\
  fetchOutcome duplicateLead = FetchResponds r /\
  ok r = false /\
  (truthy_opt (Some (js "site-key")) = true ->
   exists t, executeOutcome accepted = ExecuteToken t) /\
  exists req1 req2 : Request,
    requests (submit (Some (js "site-key")) accepted
                (submit (Some (js "site-key")) duplicateLead readyWorld))
    = requests readyWorld ++ [req1; req2] /\
    forall k, k <> js "turnstileToken" ->
      lookupKey k (body req2) = lookupKey k (body req1).
Proof.
  intros r.
  assert (H : requests (submit (Some (js "site-key")) duplicateLead readyWorld)
              <> requests readyWorld) by (vm_compute; discriminate).
  assert (H2 : truthy_opt (Some (js "site-key")) = true ->
               exists t, executeOutcome accepted = ExecuteToken t)
    by (intros _; by eexists).
  split; [exact H|]. split; [reflexivity|]. split; [reflexivity|].
  split; [exact H2|].
  exact (submit_retry_after_failure (Some (js "site-key")) duplicateLead
           accepted readyWorld r H eq_refl eq_refl H2).
Defined.

(** ** The widget's callbacks *)

(** X19.  When the widget reports an error or a timeout while a site key is
    configured, the submit button is disabled, and a submission forced
    all the same sends nothing; the success callback makes the session
    ready again. *)
Theorem widget_error_blocks_submit
    (siteKey : option jsstring) (o : SubmitOutcomes) (w : World)
    (timeout : bool) :
  truthy_opt siteKey = true ->
  let w1 :=
    run (if timeout then widgetTimeoutCallback else widgetErrorCallback) w in
  turnstileReady (form w1) = false /\
  submitDisabled siteKey (form w1) = true /\
  requests (submit siteKey o w1) = requests w /\
  formData (form (submit siteKey o w1)) = formData (form w) /\
  turnstileReady (form (run widgetCallback w1)) = true.
Proof.
  intros Hk w1.
  assert (E : exists msg,
            w1 = mkWorld
                   (mkContactForm (formData (form w)) (errors (form w))
                      (status (form w)) (feedback (form w))
                      (turnstileId (form w)) false)
                   (perform (Console Warn msg) (window w)))
    by (subst w1; destruct timeout; by eexists).
  destruct E as [msg E]. rewrite E.
  split; [reflexivity|].
  split; [unfold submitDisabled; simpl; by rewrite Hk, orb_true_r|].
  split; [|split; [|reflexivity]];
    rewrite submit_flat; unfold submitFlat; cbn [form window formData
      turnstileReady turnstileId settled_form]; rewrite Hk;
    destruct (valid (formData (form w))); cbn [negb andb orb];
    try reflexivity;
    by rewrite requests_performed, app_nil_r.
Qed.

Lemma widget_error_blocks_submit_witness :
  let w1 := run widgetTimeoutCallback readyWorld in
  truthy_opt (Some (js "site-key")) = true /\
  turnstileReady (form w1) = false /\
  submitDisabled (Some (js "site-key")) (form w1) = true /\
  requests (submit (Some (js "site-key")) accepted w1) = requests readyWorld /\
  formData (form (submit (Some (js "site-key")) accepted w1))
  = formData (form readyWorld) /\
  turnstileReady (form (run widgetCallback w1)) = true.
Proof.
  intros w1. split; [reflexivity|].
  apply (widget_error_blocks_submit (Some (js "site-key")) accepted
           readyWorld true).
  reflexivity.
Defined.

(** ** The mount effect *)

Ltac init_compute :=
  unfold run, initTurnstile, try_catch, bind, awaitLoadTurnstile,
    loadTurnstileIn, script_onload, script_onerror, windowTurnstile,
    renderWidget, effect, ret, return_, throw, setTurnstileId,
    setTurnstileReady, modifyForm; cbn.

Lemma initTurnstile_skipped
    (siteKey : option jsstring) (o : MountOutcomes) (w : World) :
  truthy_opt siteKey = false \/ cancelledAtTimer o = true ->
  run (initTurnstile siteKey o) w = w.
Proof.
  intros H. unfold run, initTurnstile.
  destruct (cancelledAtTimer o); [reflexivity|].
  destruct H as [H|H]; [|discriminate].
  destruct siteKey as [[|c k]|]; [reflexivity|discriminate|reflexivity].
Qed.

(** X20.  Without a site key (undefined or empty), or when the cleanup ran
    before the timer fired, the mount effect changes nothing at all. *)
Theorem initTurnstile_noop
    (siteKey : option jsstring) (o : MountOutcomes) (w : World) :
  truthy_opt siteKey = false \/ cancelledAtTimer o = true ->
  run (initTurnstile siteKey o) w = w.
Proof. exact (initTurnstile_skipped siteKey o w). Qed.

Lemma initTurnstile_noop_witness :
  (truthy_opt (Some []) = false \/
   cancelledAtTimer
     (mkMountOutcomes false ScriptLoads false true (RenderReturns (js "x")))
   = true) /\
  run (initTurnstile (Some [])
         (mkMountOutcomes false ScriptLoads false true
            (RenderReturns (js "x"))))
    readyWorld = readyWorld.
Proof.
  split; [left; reflexivity|].
  apply (initTurnstile_noop (Some [])
           (mkMountOutcomes false ScriptLoads false true
              (RenderReturns (js "x"))) readyWorld).
  left; reflexivity.
Defined.

Lemma initTurnstile_preserves
    (siteKey : option jsstring) (o : MountOutcomes) (w : World) :
  let w' := run (initTurnstile siteKey o) w in
  formData (form w') = formData (form w) /\
  errors (form w') = errors (form w) /\
  status (form w') = status (form w) /\
  feedback (form w') = feedback (form w) /\
  requests w' = requests w /\
  turnstile (window w') = turnstile (window w).
Proof.
  intros w'. subst w'.
  destruct w as [[d e st fb tid rdy] [ld api sc cl]].
  destruct o as [c1 so c2 m ro].
  destruct siteKey as [[|c k]|], c1; try done.
  init_compute. unfold existingScript. cbn.
  destruct ld, (existsb (startsWith scriptPrefix) sc), so, c2, api, m,
    ro as [id|err]; cbn;
    repeat split; unfold requests; cbn; rewrite ?omap_app; cbn;
    by rewrite ?app_nil_r.
Qed.

(** X21.  Whatever happens while the widget is set up, the mount effect leaves
    the draft, the errors, the status and the message alone, sends no
    request and does not touch [window.turnstile]. *)
Theorem initTurnstile_frame
    (siteKey : option jsstring) (o : MountOutcomes) (w : World) :
  let w' := run (initTurnstile siteKey o) w in
  formData (form w') = formData (form w) /\
  errors (form w') = errors (form w) /\
  status (form w') = status (form w) /\
  feedback (form w') = feedback (form w) /\
  requests w' = requests w /\
  turnstile (window w') = turnstile (window w).
Proof. exact (initTurnstile_preserves siteKey o w). Qed.

(** X22.  When the script fails to load or the render call throws, the session
    is marked not ready, the widget identifier is left as it was, and the
    submit button is disabled. *)
Theorem initTurnstile_failure
    (key : jsstring) (o : MountOutcomes) (w : World) :
  truthy key = true ->
  cancelledAtTimer o = false ->
  (fst (loadTurnstileIn (window w)) = Pending /\
   scriptOutcome o = ScriptFails) \/
  ((fst (loadTurnstileIn (window w)) = Resolved \/
    scriptOutcome o = ScriptLoads) /\
   cancelledAfterLoad o = false /\
   turnstile (window w) = true /\
   captchaMounted o = true /\
   exists e, renderOutcome o = RenderThrows e) ->
  let w' := run (initTurnstile (Some key) o) w in
  turnstileReady (form w') = false /\
  turnstileId (form w') = turnstileId (form w) /\
  submitDisabled (Some key) (form w') = true.
Proof.
  intros Hk Hc1 H w'.
  assert (E : form w' =
              mkContactForm (formData (form w)) (errors (form w))
                (status (form w)) (feedback (form w))
                (turnstileId (form w)) false).
  { subst w'.
    destruct w as [[d e st fb tid rdy] [ld api sc cl]].
    destruct o as [c1 so c2 m ro].
    destruct key as [|c k]; [discriminate|].
    cbn [cancelledAtTimer scriptOutcome cancelledAfterLoad captchaMounted
         renderOutcome window form turnstile] in Hc1, H. subst c1.
    revert H. init_compute. unfold existingScript. cbn.
    destruct ld, (existsb (startsWith scriptPrefix) sc); cbn;
      intros [[H1 H2]|([H1|H1] & H2 & H3 & H4 & err & H5)];
      try discriminate; subst; reflexivity. }
  rewrite E. unfold submitDisabled. simpl. rewrite Hk.
  by rewrite orb_true_r.
Qed.

Lemma initTurnstile_failure_witness :
  let o := mkMountOutcomes false ScriptFails false true
             (RenderReturns (js "widget-1")) in
  let w := mkWorld initialForm freshWindow in
  let w' := run (initTurnstile (Some (js "site-key")) o) w in
  truthy (js "site-key") = true /\
  cancelledAtTimer o = false /\
  ((fst (loadTurnstileIn (window w)) = Pending /\
    scriptOutcome o = ScriptFails) \/
   ((fst (loadTurnstileIn (window w)) = Resolved \/
     scriptOutcome o = ScriptLoads) /\
    cancelledAfterLoad o = false /\
    turnstile (window w) = true /\
    captchaMounted o = true /\
    exists e, renderOutcome o = RenderThrows e)) /\
  turnstileReady (form w') = false /\
  turnstileId (form w') = turnstileId (form w) /\
  submitDisabled (Some (js "site-key")) (form w') = true.
Proof.
  intros o w w'.
  split; [reflexivity|]. split; [reflexivity|].
  assert (H : (fst (loadTurnstileIn (window w)) = Pending /\
               scriptOutcome o = ScriptFails) \/
              ((fst (loadTurnstileIn (window w)) = Resolved \/
                scriptOutcome o = ScriptLoads) /\
               cancelledAfterLoad o = false /\
               turnstile (window w) = true /\
               captchaMounted o = true /\
               exists e, renderOutcome o = RenderThrows e))
    by (left; split; reflexivity).
  split; [exact H|].
  exact (initTurnstile_failure (js "site-key") o w eq_refl eq_refl H).
Defined.

(** X23.  The widget identifier changes only when the render call returns:
    then it is the identifier returned, the site key was passed to
    [render], and the session is ready. *)
Theorem initTurnstile_id_only_by_render
    (siteKey : option jsstring) (o : MountOutcomes) (w : World) :
  let w' := run (initTurnstile siteKey o) w in
  turnstileId (form w') <> turnstileId (form w) ->
  exists key id,
    siteKey = Some key /\
    renderOutcome o = RenderReturns id /\
    turnstileId (form w') = Some id /\
    turnstileReady (form w') = true /\
    In (Render key) (calls (window w')).
Proof.
  intros w'. subst w'.
  destruct w as [[d e st fb tid rdy] [ld api sc cl]].
  destruct o as [c1 so c2 m ro].
  destruct siteKey as [[|c k]|], c1; try done.
  init_compute. unfold existingScript. cbn.
  destruct ld, (existsb (startsWith scriptPrefix) sc), so, c2, api, m,
    ro as [id|err]; cbn; try done;
    intros _; eexists _, _; repeat split;
    rewrite ?in_app_iff; cbn; tauto.
Qed.

Lemma initTurnstile_id_only_by_render_witness :
  let o := mkMountOutcomes false ScriptLoads false true
             (RenderReturns (js "widget-1")) in
  let w := mkWorld initialForm (mkWindow false true [] []) in
  let w' := run (initTurnstile (Some (js "site-key")) o) w in
  turnstileId (form w') <> turnstileId (form w) /\
  exists key id,
    Some (js "site-key") = Some key /\
    renderOutcome o = RenderReturns id /\
    turnstileId (form w') = Some id /\
    turnstileReady (form w') = true /\
    In (Render key) (calls (window w')).
Proof.
  intros o w w'.
  assert (H : turnstileId (form w') <> turnstileId (form w))
    by (vm_compute; discriminate).
  split; [exact H|].
  exact (initTurnstile_id_only_by_render (Some (js "site-key")) o w H).
Defined.

(** ** The loader, once more *)

Lemma lifetime_keeps_settled (es : list LoaderEvent) (w : Window) :
  settled w -> settled (lifetime es w).
Proof.
  revert w. induction es as [|e es IH]; intros w H; [done|].
  rewrite lifetime_cons. apply IH. by apply loaderStep_settled.
Qed.

(** X24.  Once a call has injected the script element, every later call
    resolves at once and marks the script as loaded, whether the element
    has loaded, is still loading or has failed; the element is neither
    injected again nor replaced. *)
Theorem loadTurnstile_never_reinjects
    (w : Window) (es : list LoaderEvent) :
  fst (loadTurnstileIn w) = Pending ->
  let w1 := lifetime es (snd (loadTurnstileIn w)) in
  fst (loadTurnstileIn w1) = Resolved /\
  _turnstileLoaded (snd (loadTurnstileIn w1)) = true /\
  scripts (snd (loadTurnstileIn w1)) = scripts w ++ [scriptSrc].
Proof.
  intros Hp w1.
  assert (Hs : settled (snd (loadTurnstileIn w)) /\
               scripts (snd (loadTurnstileIn w)) = scripts w ++ [scriptSrc]).
  { revert Hp. unfold loadTurnstileIn, settled.
    destruct (_turnstileLoaded w); [discriminate|].
    destruct (existingScript w); [discriminate|]. intros _. simpl.
    split; [|reflexivity]. right.
    unfold existingScript. cbn [scripts]. rewrite existsb_app.
    cbn [existsb]. rewrite scriptSrc_matches. by rewrite orb_true_r. }
  destruct Hs as [Hs Hsc].
  pose proof (lifetime_keeps_settled es _ Hs) as Hs1.
  destruct (lifetime_settled es _ Hs) as [Hsc1 _].
  fold w1 in Hs1, Hsc1. rewrite Hsc in Hsc1.
  unfold loadTurnstileIn.
  destruct (_turnstileLoaded w1) eqn:Hl; [done|].
  destruct Hs1 as [Hs1|Hs1]; [congruence|].
  rewrite Hs1. done.
Qed.

Lemma loadTurnstile_never_reinjects_witness :
  let w1 := lifetime [ScriptError] (snd (loadTurnstileIn freshWindow)) in
  fst (loadTurnstileIn freshWindow) = Pending /\
  fst (loadTurnstileIn w1) = Resolved /\
  _turnstileLoaded (snd (loadTurnstileIn w1)) = true /\
  scripts (snd (loadTurnstileIn w1)) = scripts freshWindow ++ [scriptSrc].
Proof.
  intros w1. split; [reflexivity|].
  apply (loadTurnstile_never_reinjects freshWindow [ScriptError]).
  reflexivity.
Defined.

(** ** Sessions *)

Lemma session_cons (siteKey : option jsstring) (e : UIEvent)
    (es : list UIEvent) (w : World) :
  session siteKey (e :: es) w = session siteKey es (uiStep siteKey w e).
Proof. reflexivity. Qed.

Lemma widget_callbacks_eq (w : World) :
  run widgetCallback w =
    mkWorld
      (mkContactForm (formData (form w)) (errors (form w)) (status (form w))
         (feedback (form w)) (turnstileId (form w)) true)
      (window w) /\
  run widgetErrorCallback w =
    mkWorld
      (mkContactForm (formData (form w)) (errors (form w)) (status (form w))
         (feedback (form w)) (turnstileId (form w)) false)
      (perform (Console Warn (js "Turnstile error")) (window w)) /\
  run widgetTimeoutCallback w =
    mkWorld
      (mkContactForm (formData (form w)) (errors (form w)) (status (form w))
         (feedback (form w)) (turnstileId (form w)) false)
      (perform (Console Warn (js "Turnstile timeout")) (window w)).
Proof. done. Qed.

Lemma uiStep_unconfigured
    (siteKey : option jsstring) (w : World) (e : UIEvent) :
  truthy_opt siteKey = false ->
  turnstileId (form w) = None ->
  turnstileId (form (uiStep siteKey w e)) = None /\
  exists new,
    calls (window (uiStep siteKey w e)) = calls (window w) ++ new /\
    Forall unverifiedCall new.
Proof.
  intros Hk Hid.
  destruct (widget_callbacks_eq w) as (E1 & E2 & E3).
  destruct e as [o| | | |b|k v|o]; cbn [uiStep].
  - rewrite initTurnstile_skipped by auto. split; [done|].
    exists []. by rewrite app_nil_r.
  - rewrite E1. split; [done|]. exists []. by rewrite app_nil_r.
  - rewrite E2. split; [done|]. eexists. split; [reflexivity|].
    by repeat constructor.
  - rewrite E3. split; [done|]. eexists. split; [reflexivity|].
    by repeat constructor.
  - split; [done|]. exists []. by rewrite app_nil_r.
  - rewrite handleChange_eq. split; [done|]. exists [].
    by rewrite app_nil_r.
  - rewrite submit_flat. unfold submitFlat. rewrite Hk, Hid.
    cbn [andb truthy_opt resetIn].
    destruct (valid (formData (form w))); cbn [negb];
      [|split; [done|]; exists []; by rewrite app_nil_r].
    destruct (fetchOutcome o) as [r|err];
      [destruct (ok r); [|destruct (json r)]|];
      (split; [done|]); simpl; rewrite <- ?app_assoc;
      eexists; (split; [reflexivity|]); by repeat constructor.
Qed.

(** X25.  With no site key configured, whatever the user and the environment
    do, the form never gets a widget identifier and never touches the
    script or the widget: all it ever does is write to the console and
    send requests whose token is the empty string. *)
Theorem session_unconfigured
    (siteKey : option jsstring) (es : list UIEvent) (w : World) :
  truthy_opt siteKey = false ->
  turnstileId (form w) = None ->
  turnstileId (form (session siteKey es w)) = None /\
  exists new,
    calls (window (session siteKey es w)) = calls (window w) ++ new /\
    Forall unverifiedCall new.
Proof.
  intros Hk. revert w. induction es as [|e es IH]; intros w Hid.
  - split; [done|]. exists []. by rewrite app_nil_r.
  - rewrite session_cons.
    destruct (uiStep_unconfigured siteKey w e Hk Hid)
      as (Hid1 & new1 & Hc1 & Hn1).
    destruct (IH _ Hid1) as (Hid2 & new2 & Hc2 & Hn2).
    split; [done|]. exists (new1 ++ new2).
    split; [by rewrite Hc2, Hc1, app_assoc | by apply Forall_app].
Qed.

Lemma session_unconfigured_witness :
  let es := [Mount (mkMountOutcomes false ScriptLoads false true
                      (RenderReturns (js "widget-1")));
             WidgetSuccess; Submit accepted;
             Change Key.name (js "Ada"); Submit duplicateLead] in
  truthy_opt None = false /\
  turnstileId (form sampleWorld) = None /\
  turnstileId (form (session None es sampleWorld)) = None /\
  exists new,
    calls (window (session None es sampleWorld))
    = calls (window sampleWorld) ++ new /\
    Forall unverifiedCall new.
Proof.
  intros es. split; [reflexivity|]. split; [reflexivity|].
  apply (session_unconfigured None es sampleWorld); reflexivity.
Defined.

Lemma uiStep_status
    (siteKey : option jsstring) (w : World) (e : UIEvent) :
  status (form w) <> submitting ->
  status (form (uiStep siteKey w e)) <> submitting.
Proof.
  intros Hs.
  destruct (widget_callbacks_eq w) as (E1 & E2 & E3).
  destruct e as [o| | | |b|k v|o]; cbn [uiStep];
    rewrite ?E1, ?E2, ?E3, ?handleChange_eq; try done.
  - by destruct (initTurnstile_preserves siteKey o w) as (_ & _ & -> & _).
  - destruct (submit_settles siteKey o w)
      as (_ & [[_ ->]|(_ & [-> | ->] & _)]); done.
Qed.

(** X26.  Between events the form is never left in the status [submitting]:
    if it starts interactive, it is interactive after every event, so
    its fields are never stuck disabled. *)
Theorem session_interactive
    (siteKey : option jsstring) (es : list UIEvent) (w : World) :
  status (form w) <> submitting ->
  status (form (session siteKey es w)) <> submitting /\
  fieldsetDisabled (form (session siteKey es w)) = false.
Proof.
  intros Hs.
  assert (H : status (form (session siteKey es w)) <> submitting).
  { revert w Hs. induction es as [|e es IH]; intros w Hs; [done|].
    rewrite session_cons. apply IH. by apply uiStep_status. }
  split; [exact H|]. unfold fieldsetDisabled.
  by destruct (status (form (session siteKey es w))).
Qed.

Lemma session_interactive_witness :
  let es := [Mount (mkMountOutcomes false ScriptLoads false true
                      (RenderReturns (js "widget-1")));
             Submit duplicateLead; WidgetTimeout; Submit accepted] in
  let w := mkWorld (form sampleWorld) (mkWindow false true [] []) in
  status (form w) <> submitting /\
  status (form (session (Some (js "site-key")) es w)) <> submitting /\
  fieldsetDisabled (form (session (Some (js "site-key")) es w)) = false.
Proof.
  intros es w.
  assert (H : status (form w) <> submitting) by discriminate.
  split; [exact H|].
  exact (session_interactive (Some (js "site-key")) es w H).
Defined.

Lemma loaderStep_view (a b : Window) (e : LoaderEvent) :
  loaderView a = loaderView b ->
  loaderView (loaderStep a e) = loaderView (loaderStep b e).
Proof.
  destruct a as [la ta sa ca], b as [lb tb sb cb].
  unfold loaderView. cbn [_turnstileLoaded scripts]. intros [= -> ->].
  destruct e; [|done|done].
  cbn [loaderStep]. unfold loadTurnstileIn, existingScript.
  cbn [_turnstileLoaded scripts turnstile calls].
  by destruct lb, (existsb (startsWith scriptPrefix) sb).
Qed.

Lemma lifetime_view (es : list LoaderEvent) (a b : Window) :
  loaderView a = loaderView b ->
  loaderView (lifetime es a) = loaderView (lifetime es b).
Proof.
  revert a b. induction es as [|e es IH]; intros a b H; [done|].
  rewrite !lifetime_cons. apply IH. by apply loaderStep_view.
Qed.

Lemma lifetime_app (es1 es2 : list LoaderEvent) (w : Window) :
  lifetime (es1 ++ es2) w = lifetime es2 (lifetime es1 w).
Proof. unfold lifetime. apply fold_left_app. Qed.

(** Seen from the loader, every event of a session is a piece of a
    loader lifetime. *)
Lemma uiStep_view (siteKey : option jsstring) (w : World) (e : UIEvent) :
  exists les,
    loaderView (window (uiStep siteKey w e))
    = loaderView (lifetime les (window w)).
Proof.
  destruct (widget_callbacks_eq w) as (E1 & E2 & E3).
  destruct e as [o| | | |b|k v|o]; cbn [uiStep];
    rewrite ?E1, ?E2, ?E3, ?handleChange_eq; try (by exists []).
  - destruct w as [[d e st fb tid rdy] [ld api sc cl]].
    destruct o as [c1 so c2 m ro].
    destruct siteKey as [[|c k]|], c1; try (by exists []).
    init_compute. unfold existingScript. cbn.
    destruct ld; [exists []; by destruct c2, api, m, ro|].
    destruct (existsb (startsWith scriptPrefix) sc) eqn:Ex.
    + exists [CallLoad]. unfold lifetime, loaderView. cbn.
      unfold loadTurnstileIn, existingScript. cbn. rewrite Ex.
      by destruct c2, api, m, ro.
    + destruct so.
      * exists [CallLoad; ScriptLoad]. unfold lifetime, loaderView. cbn.
        unfold loadTurnstileIn, existingScript. cbn. rewrite Ex.
        by destruct c2, api, m, ro.
      * exists [CallLoad; ScriptError]. unfold lifetime, loaderView. cbn.
        unfold loadTurnstileIn, existingScript. cbn. by rewrite Ex.
  - exists []. unfold loaderView. simpl.
    by destruct (submit_preserves siteKey o w) as (_ & _ & -> & _ & -> & _).
Qed.

Lemma session_view (siteKey : option jsstring) (es : list UIEvent)
    (w : World) :
  exists les,
    loaderView (window (session siteKey es w))
    = loaderView (lifetime les (window w)).
Proof.
  revert w. induction es as [|e es IH]; intros w; [by exists []|].
  rewrite session_cons.
  destruct (uiStep_view siteKey w e) as [l1 H1].
  destruct (IH (uiStep siteKey w e)) as [l2 H2].
  exists (l1 ++ l2). rewrite H2, lifetime_app. by apply lifetime_view.
Qed.

(** X27.  Over a whole session, however often the mount effect runs and
    whatever else happens, the document gains at most one script
    element, the Turnstile one, and loses none. *)
Theorem session_script_once
    (siteKey : option jsstring) (es : list UIEvent) (w : World) :
  scripts (window (session siteKey es w)) = scripts (window w) \/
  scripts (window (session siteKey es w))
  = scripts (window w) ++ [scriptSrc].
Proof.
  destruct (session_view siteKey es w) as [les [= _ H]]. rewrite H.
  destruct (lifetime_appends_once les (window w)) as [[-> _]|[-> _]]; auto.
Qed.

Lemma uiStep_widget_id
    (siteKey : option jsstring) (w : World) (e : UIEvent) :
  isMount e = false ->
  turnstileId (form (uiStep siteKey w e)) = turnstileId (form w).
Proof.
  intros He.
  destruct (widget_callbacks_eq w) as (E1 & E2 & E3).
  destruct e as [o| | | |b|k v|o]; [discriminate|..]; cbn [uiStep];
    rewrite ?E1, ?E2, ?E3, ?handleChange_eq; try done.
  by destruct (submit_preserves siteKey o w) as (-> & _).
Qed.

(** X28.  The widget identifier is assigned by the mount effect alone: no
    edit, submission or widget callback changes it. *)
Theorem session_widget_id_stable
    (siteKey : option jsstring) (es : list UIEvent) (w : World) :
  Forall (fun e => isMount e = false) es ->
  turnstileId (form (session siteKey es w)) = turnstileId (form w).
Proof.
  intros H. revert w. induction H as [|e es He _ IH]; intros w; [done|].
  rewrite session_cons, IH. by apply uiStep_widget_id.
Qed.

Lemma session_widget_id_stable_witness :
  let es := [WidgetError; Change Key.name (js "Ada"); Submit accepted;
             WidgetSuccess; SetTurnstile false; Submit duplicateLead] in
  Forall (fun e => isMount e = false) es /\
  turnstileId (form (session (Some (js "site-key")) es readyWorld))
  = turnstileId (form readyWorld).
Proof.
  intros es.
  assert (H : Forall (fun e => isMount e = false) es)
    by (repeat constructor).
  split; [exact H|].
  exact (session_widget_id_stable (Some (js "site-key")) es readyWorld H).
Defined.

Lemma uiStep_requests
    (siteKey : option jsstring) (w : World) (e : UIEvent) :
  (length (requests (uiStep siteKey w e))
   <= length (requests w) + (if isSubmit e then 1 else 0))%nat.
Proof.
  destruct (widget_callbacks_eq w) as (E1 & E2 & E3).
  destruct e as [o| | | |b|k v|o]; cbn [uiStep isSubmit];
    rewrite ?E1, ?E2, ?E3, ?handleChange_eq, ?requests_performed,
      ?app_nil_r; try (unfold requests; simpl; lia).
  - destruct (initTurnstile_preserves siteKey o w)
      as (_ & _ & _ & _ & -> & _). lia.
  - destruct (submit_cases siteKey o w)
      as [[-> _]|(token & _ & _ & -> & _)];
      rewrite ?length_app; simpl; lia.
Qed.

(** X29.  Requests leave the page through submissions only, at most one for
    each: after any session the number of requests sent is at most the
    number of submit events. *)
Theorem session_requests_bounded
    (siteKey : option jsstring) (es : list UIEvent) (w : World) :
  (length (requests (session siteKey es w))
   <= length (requests w) + length (List.filter isSubmit es))%nat.
Proof.
  revert w. induction es as [|e es IH]; intros w; [simpl; lia|].
  rewrite session_cons.
  pose proof (IH (uiStep siteKey w e)) as H1.
  pose proof (uiStep_requests siteKey w e) as H2.
  simpl. destruct (isSubmit e); simpl; lia.
Qed.


Lemma executedBeforeFetch_execute (i a : jsstring) (l : list Effect) :
  executedBeforeFetch (Execute i a :: l) =
  match l with
  | Fetch _ :: l'' => executedBeforeFetch l''
  | _ => executedBeforeFetch l
  end.
Proof. reflexivity. Qed.

Lemma executedBeforeFetch_app (l1 l2 : list Effect) :
  executedBeforeFetch l1 = true ->
  executedBeforeFetch l2 = true ->
  executedBeforeFetch (l1 ++ l2) = true.
Proof.
  intros H1 H2.
  assert (G : forall n l, (length l <= n)%nat ->
                executedBeforeFetch l = true ->
                executedBeforeFetch (l ++ l2) = true).
  { induction n as [|n IH]; intros l Hn Hl.
    - destruct l; [exact H2 | simpl in Hn; lia].
    - destruct l as [|a l]; [exact H2|]. simpl in Hn.
      destruct a as [src|key|i|i a|r|lv msg];
        try (apply (IH l); [lia | exact Hl]); [|discriminate].
      change ((Execute i a :: l) ++ l2) with (Execute i a :: (l ++ l2)).
      rewrite executedBeforeFetch_execute in Hl |- *.
      destruct l as [|b l].
      + change ([] ++ l2) with l2.
        destruct l2 as [|[] l2]; try exact H2. discriminate.
      + change ((b :: l) ++ l2) with (b :: (l ++ l2)). simpl in Hn.
        destruct b; cbv beta iota in Hl |- *;
          first [ apply (IH l); [lia | exact Hl]
                | apply (IH (_ :: l)); [simpl; lia | exact Hl] ]. }
  by apply (G (length l1)).
Qed.

Lemma executedBeforeFetch_no_fetch (l : list Effect) :
  Forall (fun e => isFetch e = false) l -> executedBeforeFetch l = true.
Proof.
  induction 1 as [|a l Ha Hl IH]; [reflexivity|].
  destruct a; try discriminate; simpl; try exact IH.
  destruct Hl as [|b l Hb Hl]; [reflexivity|].
  destruct b; try discriminate; exact IH.
Qed.

Lemma initTurnstile_calls
    (siteKey : option jsstring) (o : MountOutcomes) (w : World) :
  exists new,
    calls (window (run (initTurnstile siteKey o) w))
    = calls (window w) ++ new /\
    Forall (fun e => isFetch e = false) new.
Proof.
  destruct w as [[d e st fb tid rdy] [ld api sc cl]].
  destruct o as [c1 so c2 m ro].
  destruct siteKey as [[|c k]|], c1;
    try (exists []; split; [by rewrite app_nil_r | constructor]).
  init_compute. unfold existingScript. cbn.
  destruct ld, (existsb (startsWith scriptPrefix) sc), so, c2, api, m,
    ro as [id|err]; cbn; rewrite <- ?app_assoc;
    try (exists []; split; [by rewrite app_nil_r | constructor]);
    eexists; (split; [reflexivity|]); by repeat constructor.
Qed.

Lemma uiStep_guarded
    (siteKey : option jsstring) (w : World) (e : UIEvent) :
  truthy_opt siteKey = true ->
  exists new,
    calls (window (uiStep siteKey w e)) = calls (window w) ++ new /\
    executedBeforeFetch new = true.
Proof.
  intros Hk.
  destruct (widget_callbacks_eq w) as (E1 & E2 & E3).
  destruct e as [o| | | |b|k v|o]; cbn [uiStep];
    rewrite ?E1, ?E2, ?E3, ?handleChange_eq;
    try (exists []; split; [by rewrite app_nil_r | reflexivity]);
    try (eexists; split; [reflexivity | reflexivity]).
  - destruct (initTurnstile_calls siteKey o w) as (new & Hc & Hn).
    exists new. split; [exact Hc | by apply executedBeforeFetch_no_fetch].
  - rewrite submit_flat. unfold submitFlat. rewrite Hk.
    destruct w as [[d e st fb tid rdy] [ld api sc cl]].
    destruct o as [eo fo].
    cbn [form window formData turnstileId turnstileReady turnstile
         executeOutcome fetchOutcome andb].
    destruct (valid d); cbn [negb];
      [|exists []; split; [by rewrite app_nil_r | reflexivity]].
    destruct rdy, api, tid as [[|c i]|]; cbn;
      try (exists []; split; [by rewrite app_nil_r | reflexivity]).
    destruct eo as [t| |];
      [destruct fo as [r|err]; [destruct (ok r); [|destruct (json r)]|]|..];
      cbn; rewrite <- ?app_assoc;
      eexists; (split; [reflexivity|]); reflexivity.
Qed.

(** X30.  With a site key configured, no request ever leaves the page
    unverified: in everything the form does over a session, each request
    comes right after an [execute] of the widget. *)
Theorem session_configured_guarded
    (siteKey : option jsstring) (es : list UIEvent) (w : World) :
  truthy_opt siteKey = true ->
  exists new,
    calls (window (session siteKey es w)) = calls (window w) ++ new /\
    executedBeforeFetch new = true.
Proof.
  intros Hk. revert w. induction es as [|e es IH]; intros w.
  - exists []. split; [by rewrite app_nil_r | reflexivity].
  - rewrite session_cons.
    destruct (uiStep_guarded siteKey w e Hk) as (new1 & Hc1 & Hn1).
    destruct (IH (uiStep siteKey w e)) as (new2 & Hc2 & Hn2).
    exists (new1 ++ new2).
    split; [by rewrite Hc2, Hc1, app_assoc|].
    by apply executedBeforeFetch_app.
Qed.

Lemma session_configured_guarded_witness :
  let es := [Mount (mkMountOutcomes false ScriptLoads false true
                      (RenderReturns (js "widget-1")));
             Submit duplicateLead; WidgetTimeout; Submit accepted;
             WidgetSuccess; Submit accepted] in
  let w := mkWorld (form sampleWorld) (mkWindow false true [] []) in
  truthy_opt (Some (js "site-key")) = true /\
  exists new,
    calls (window (session (Some (js "site-key")) es w))
    = calls (window w) ++ new /\
    executedBeforeFetch new = true.
Proof.
  intros es w. split; [reflexivity|].
  apply (session_configured_guarded (Some (js "site-key")) es w).
  reflexivity.
Defined.
